(** * Semi-gradient Q-learning with linear function approximation

    A shallow embedding of [q_learn_mountain_car.py]: the [Solver] (weight
    vector, action values, greedy action, temporal-difference update), the
    reward shaping, the episode runner and the success-rate computation of
    the evaluation block.

    Numbers.  Python floats are modelled as exact rationals ([Q]); rounding,
    infinities and signed zeros are outside this model.  Numeric equality
    ([==] in Python) is [Qeq]; the one not-a-number the program can produce,
    [np.mean] of an empty list, is modelled as [None].  Python integers are
    [Z].  A raised exception is [None] in the solver's operations and
    [Exception] in the episode runner.

    Where rounding decides a property, [Binary64] replays the update of
    the smallest solver, one action and one feature, on the kernel's
    binary64 floats. *)

From Stdlib Require Import ZArith QArith Qpower List Bool Lia Lqa.
From Stdlib Require PrimFloat.
Import ListNotations.

Local Open Scope Z_scope.
Local Open Scope Q_scope.

(** ** The fragment of NumPy the program uses, on one-dimensional arrays *)

Module NumPy.

(** Python's normalisation of one slice bound against a length: a negative
    bound counts from the end, and both are clamped into [0, len]. *)
Definition slice_index (len i : Z) : Z :=
  if (i <? 0)%Z then Z.max (i + len) 0 else Z.min i len.

(** Offset and length of [l[start:stop]]. *)
Definition slice_bounds {A} (l : list A) (start stop : Z) : nat * nat :=
  let len := Z.of_nat (length l) in
  let s := slice_index len start in
  let e := slice_index len stop in
  (Z.to_nat s, Z.to_nat (e - s)).

(** [l[start:stop]] *)
Definition slice {A} (l : list A) (start stop : Z) : list A :=
  let '(s, k) := slice_bounds l start stop in
  firstn k (skipn s l).

(** [l[start:stop] = v]: the value must have the slice's length, or length
    one (it is then broadcast); anything else raises. *)
Definition set_slice (l : list Q) (start stop : Z) (v : list Q)
  : option (list Q) :=
  let '(s, k) := slice_bounds l start stop in
  if Nat.eqb (length v) k then
    Some (firstn s l ++ v ++ skipn (s + k) l)
  else if Nat.eqb (length v) 1 then
    Some (firstn s l ++ repeat (hd 0 v) k ++ skipn (s + k) l)
  else None.

(** [np.zeros(n)]: raises on a negative dimension. *)
Definition zeros (n : Z) : option (list Q) :=
  if (n <? 0)%Z then None else Some (repeat 0 (Z.to_nat n)).

Fixpoint dot_sum (a b : list Q) : Q :=
  match a, b with
  | x :: a', y :: b' => x * y + dot_sum a' b'
  | _, _ => 0
  end.

(** [np.dot(a, b)] on vectors: raises unless the lengths agree. *)
Definition dot (a b : list Q) : option Q :=
  if Nat.eqb (length a) (length b) then Some (dot_sum a b) else None.

(** [c * v] for a scalar [c]. *)
Definition scale (c : Q) (v : list Q) : list Q := map (Qmult c) v.

Fixpoint zip_plus (a b : list Q) : list Q :=
  match a, b with
  | x :: a', y :: b' => (x + y) :: zip_plus a' b'
  | _, _ => []
  end.

(** [a + b] on vectors, with NumPy's broadcasting of a length-one operand. *)
Definition add (a b : list Q) : option (list Q) :=
  if Nat.eqb (length a) (length b) then Some (zip_plus a b)
  else if Nat.eqb (length a) 1 then Some (map (Qplus (hd 0 a)) b)
  else if Nat.eqb (length b) 1 then Some (map (fun x => x + hd 0 b) a)
  else None.

(** The scan of [np.argmax]: [best] is the largest entry seen so far and
    [besti] its first position; a later entry wins only when strictly
    larger. *)
Fixpoint argmax_from (besti : Z) (best : Q) (i : Z) (l : list Q) : Z :=
  match l with
  | [] => besti
  | x :: t =>
      if Qlt_le_dec best x then argmax_from i x (i + 1)%Z t
      else argmax_from besti best (i + 1)%Z t
  end.

(** [np.argmax(l)]: first index of a maximal entry; raises on []. *)
Definition argmax (l : list Q) : option Z :=
  match l with
  | [] => None
  | x :: t => Some (argmax_from 0%Z x 1%Z t)
  end.

Definition sum (l : list Q) : Q := fold_right Qplus 0 l.

(** [np.mean(l)]; the mean of an empty list is not a number. *)
Definition mean (l : list Q) : option Q :=
  match l with
  | [] => None
  | _ => Some (sum l / inject_Z (Z.of_nat (length l)))
  end.

(** [range(n)] *)
Definition range (n : Z) : list Z := map Z.of_nat (seq 0 (Z.to_nat n)).

End NumPy.

(** [k] indexes a maximal entry of [l], and every earlier entry is
    strictly smaller. *)
Definition first_max (l : list Q) (k : Z) : Prop :=
  (0 <= k < Z.of_nat (length l))%Z /\
  (forall j, (j < length l)%nat -> nth j l 0 <= nth (Z.to_nat k) l 0) /\
  (forall j, (j < Z.to_nat k)%nat -> nth j l 0 < nth (Z.to_nat k) l 0).

(** Sequencing of operations that may raise. *)
Definition bind {A B} (m : option A) (k : A -> option B) : option B :=
  match m with
  | Some a => k a
  | None => None
  end.

Notation "x <- m ;; k" := (bind m (fun x => k))
  (at level 61, m at next level, right associativity).

Notation "' p <- m ;; k" := (bind m (fun x => match x with p => k end))
  (at level 61, p pattern, m at next level, right associativity).

Fixpoint mapM {A B} (f : A -> option B) (l : list A) : option (list B) :=
  match l with
  | [] => Some []
  | a :: t => b <- f a ;; bs <- mapM f t ;; Some (b :: bs)
  end.

(** ** Reward shaping *)

(** [modify_reward] *)
Definition modify_reward (reward : Q) : Q :=
  let reward := reward - 1 in
  if Qeq_bool reward 0 then 100 else reward.

(** ** The solver *)

Record Solver := mkSolver {
  _actions : Z;
  number_of_features : Z;
  theta : list Q;
  gamma : Q;
  learning_rate : Q
}.

Definition set_theta (s : Solver) (w : list Q) : Solver :=
  mkSolver (_actions s) (number_of_features s) w (gamma s) (learning_rate s).

Section SolverOps.

(** The environment's observations, and the feature pipeline (state
    normalisation followed by the radial-basis encoding).  Both
    collaborators live outside this source file; [get_features] is the
    composition the solver calls, a pure function of the state. *)
Variable State : Type.
Variable get_features : State -> list Q.

(** [Solver.get_q_val] *)
Definition get_q_val (s : Solver) (features : list Q) (action : Z)
  : option Q :=
  let theta_ := NumPy.slice (theta s)
                  (action * number_of_features s)
                  ((1 + action) * number_of_features s) in
  NumPy.dot features theta_.

(** [Solver.get_all_q_vals]: the array of zeros is filled in index order,
    so the result lists the action values for actions 0, 1, ... *)
Definition get_all_q_vals (s : Solver) (features : list Q)
  : option (list Q) :=
  _ <- NumPy.zeros (_actions s) ;;
  mapM (get_q_val s features) (NumPy.range (_actions s)).

(** [Solver.get_max_action] *)
Definition get_max_action (s : Solver) (state : State) : option Z :=
  let sparse_features := get_features state in
  q_vals <- get_all_q_vals s sparse_features ;;
  NumPy.argmax q_vals.

(** [Solver.get_state_action_features] *)
Definition get_state_action_features (s : Solver) (state : State)
  (action : Z) : option (list Q) :=
  let state_features := get_features state in
  let n := Z.of_nat (length state_features) in
  all_features <- NumPy.zeros (n * _actions s) ;;
  NumPy.set_slice all_features (action * n) ((1 + action) * n)
    state_features.

(** [Solver.update_theta]: the new solver and the Bellman error. *)
Definition update_theta (s : Solver) (state : State) (action : Z)
  (reward : Q) (next_state : State) (done : bool) : option (Solver * Q) :=
  let alpha := learning_rate s in
  let phi_s := get_features state in
  let phi_s_prime := get_features next_state in
  Q_s_a <- get_q_val s phi_s action ;;
  phi_s_a <- get_state_action_features s state action ;;
  Q_s_a_estimated <-
    (if done then Some reward
     else
       a_prime <- get_max_action s next_state ;;
       q_prime <- get_q_val s phi_s_prime a_prime ;;
       Some (reward + gamma s * q_prime)) ;;
  let bellman_error := Q_s_a_estimated - Q_s_a in
  let gradient := phi_s_a in
  theta' <- NumPy.add (theta s) (NumPy.scale (alpha * bellman_error) gradient) ;;
  Some (set_theta s theta', bellman_error).

(** *** Vocabulary for the solver's properties *)

(** The shape the constructor establishes: at least one action, a weight
    vector of [A * F] entries, and a feature pipeline producing [F]
    features for every state. *)
Definition consistent (s : Solver) : Prop :=
  (0 < _actions s)%Z /\
  (0 <= number_of_features s)%Z /\
  Z.of_nat (length (theta s)) = (_actions s * number_of_features s)%Z /\
  forall st, Z.of_nat (length (get_features st)) = number_of_features s.

(** The weight block of action [a]: entries [a*F] to [(a+1)*F - 1]. *)
Definition block (s : Solver) (a : Z) : list Q :=
  firstn (Z.to_nat (number_of_features s))
    (skipn (Z.to_nat (a * number_of_features s)) (theta s)).

(** The action value as the inner product of features and block. *)
Definition action_value (s : Solver) (features : list Q) (a : Z) : Q :=
  NumPy.dot_sum features (block s a).

(** The feature vector placed in block [a], zero elsewhere. *)
Definition block_vector (s : Solver) (a : Z) (features : list Q) : list Q :=
  repeat 0 (Z.to_nat (a * number_of_features s))
  ++ features
  ++ repeat 0 (Z.to_nat ((_actions s - 1 - a) * number_of_features s)).

Definition in_range (s : Solver) (a : Z) : Prop := (0 <= a < _actions s)%Z.

End SolverOps.

Arguments consistent {State} get_features s.

(** ** The update in binary64, for one action and one feature

    With one action and one feature every array of [update_theta] has a
    single entry: [np.dot] is one product, the gradient is the feature
    itself, and the greedy action is 0.  The operations are those of lines
    72-83, in the order Python evaluates them, on binary64 floats. *)

Module Binary64.
Import PrimFloat.
Local Open Scope float_scope.

(** [Solver.get_q_val] *)
Definition get_q_val (theta features : float) : float := features * theta.

(** [Solver.update_theta]: the new weight and the Bellman error. *)
Definition update_theta (theta gamma learning_rate : float)
  (phi_s reward phi_s_prime : float) (done : bool) : float * float :=
  let alpha := learning_rate in
  let Q_s_a := get_q_val theta phi_s in
  let phi_s_a := phi_s in
  let Q_s_a_estimated :=
    if done then reward
    else reward + gamma * get_q_val theta phi_s_prime in
  let bellman_error := Q_s_a_estimated - Q_s_a in
  let gradient := phi_s_a in
  (theta + alpha * bellman_error * gradient, bellman_error).

End Binary64.

(** ** The episode runner *)

(** The simulator, as the runner uses it: the attributes it reads, and
    [reset_specific] and [step] passing the simulator's state along.  The
    simulator is not part of this source file; its operations are taken to
    return for every argument. *)
Record Environment (State : Type) := mkEnvironment {
  Env : Type;
  min_position : Q;
  goal_position : Q;
  max_speed : Q;
  action_space_n : Z;
  reset_specific : Env -> Q -> Q -> State * Env;
  step : Env -> Z -> (State * Q * bool) * Env
}.

Arguments Env {State} _.
Arguments min_position {State} _.
Arguments goal_position {State} _.
Arguments max_speed {State} _.
Arguments action_space_n {State} _.
Arguments reset_specific {State} _ _ _ _.
Arguments step {State} _ _ _.

(** The process-wide generator behind [np.random]: [uniform g low high] is
    [np.random.uniform(low, high)] (the call without arguments is
    [uniform g 0 1]) and [choice g n] is [np.random.choice(n)], which raises
    when [n] is not positive. *)
Record RandomSource := mkRandomSource {
  Rng : Type;
  uniform : Rng -> Q -> Q -> Q * Rng;
  choice : Rng -> Z -> option (Z * Rng)
}.

(** What the generator guarantees about the ranges of its draws. *)
Definition rng_in_range (R : RandomSource) : Prop :=
  (forall g low high, low <= high -> low <= fst (uniform R g low high)) /\
  (forall g n, (0 < n)%Z ->
     exists a g', choice R g n = Some (a, g') /\ (0 <= a < n)%Z).

Inductive outcome (A : Type) : Type :=
| Finished (a : A)
| Exception
| OutOfFuel.

Arguments Finished {A} a.
Arguments Exception {A}.
Arguments OutOfFuel {A}.

Section Episode.

Variable State : Type.
Variable get_features : State -> list Q.
Variable E : Environment State.
Variable R : RandomSource.

(** The variables of [run_episode]'s loop.  [actions], [raw_rewards] and
    [dones] record what each iteration chose and observed; the program
    does not keep them, they are here to state properties of a run.
    [state] receives the next state at the end of every iteration, the
    last one included, where the program returns just before the
    assignment and reads the variable no more. *)
Record Loop := mkLoop {
  env : Env E;
  solver : Solver;
  rng : Rng R;
  state : State;
  step_count : Z;
  episode_gain : Q;
  deltas : list Q;
  actions : list Z;
  raw_rewards : list Q;
  dones : list bool
}.

(** What [run_episode] returns, [(episode_gain, np.mean(deltas))], next to
    the loop variables at the exit. *)
Record Episode := mkEpisode {
  gain : Q;
  mean_delta : option Q;
  at_exit : Loop
}.

(** Lines 110-113: the behaviour policy.  The generator is consulted only
    when [epsilon] is supplied. *)
Definition select_action (s : Solver) (g : Rng R) (st : State)
  (epsilon : option Q) : option (Z * Rng R) :=
  match epsilon with
  | Some eps =>
      let '(u, g1) := uniform R g 0 1 in
      if Qlt_le_dec u eps then choice R g1 (action_space_n E)
      else a <- get_max_action State get_features s st ;; Some (a, g1)
  | None =>
      a <- get_max_action State get_features s st ;; Some (a, g)
  end.

(** Lines 110-122: one iteration up to the exit test.  The result carries
    the terminal flag of this step. *)
Definition iteration (is_train : bool) (epsilon : option Q) (l : Loop)
  : option (Loop * bool) :=
  '(action, g1) <- select_action (solver l) (rng l) (state l) epsilon ;;
  let '(next_state, reward1, done, env1) := step E (env l) action in
  let reward := modify_reward reward1 in
  let step1 := (step_count l + 1)%Z in
  let gain1 := episode_gain l + reward in
  '(solver1, deltas1) <-
    (if is_train then
       '(s1, delta) <- update_theta State get_features (solver l) (state l)
                         action reward next_state done ;;
       Some (s1, deltas l ++ [delta])
     else Some (solver l, deltas l)) ;;
  Some (mkLoop env1 solver1 g1 next_state step1 gain1 deltas1
          (actions l ++ [action]) (raw_rewards l ++ [reward1])
          (dones l ++ [done]),
        done).

(** Lines 109-125: [while True].  The loop body runs at most [fuel] times;
    [OutOfFuel] stands for a loop still running after that. *)
Fixpoint episode_loop (fuel : nat) (is_train : bool) (epsilon : option Q)
  (max_steps : Z) (l : Loop) : outcome Episode :=
  match fuel with
  | O => OutOfFuel
  | S fuel' =>
      match iteration is_train epsilon l with
      | None => Exception
      | Some (l1, done) =>
          if done || (step_count l1 =? max_steps)%Z then
            Finished (mkEpisode (episode_gain l1) (NumPy.mean (deltas l1)) l1)
          else episode_loop fuel' is_train epsilon max_steps l1
      end
  end.

(** Lines 98-104: the start state. *)
Definition start_state (e : Env E) (g : Rng R) (is_train : bool)
  : State * Env E * Rng R :=
  let '(start_position, start_velocity, g2) :=
    if is_train then
      let '(p, g1) :=
        uniform R g (min_position E) (goal_position E - (1 # 100)) in
      let '(v, g2) := uniform R g1 (- max_speed E) (max_speed E) in
      (p, v, g2)
    else
      let '(v, g1) :=
        uniform R g (- max_speed E / 100) (max_speed E / 100) in
      (- (1 # 2), v, g1) in
  let '(st, e1) := reset_specific E e start_position start_velocity in
  (st, e1, g2).

(** [run_episode].  Rendering draws the simulator and sleeps; it changes
    nothing the runner reads, so [render] has no further effect here. *)
Definition run_episode (fuel : nat) (e : Env E) (s : Solver) (g : Rng R)
  (is_train : bool) (epsilon : option Q) (max_steps : Z) (render : bool)
  : outcome Episode :=
  let '(st, e1, g1) := start_state e g is_train in
  episode_loop fuel is_train epsilon max_steps
    (mkLoop e1 s g1 st 0%Z 0 [] [] [] []).

End Episode.

Arguments env {State E R} _.
Arguments solver {State E R} _.
Arguments rng {State E R} _.
Arguments state {State E R} _.
Arguments step_count {State E R} _.
Arguments episode_gain {State E R} _.
Arguments deltas {State E R} _.
Arguments actions {State E R} _.
Arguments raw_rewards {State E R} _.
Arguments dones {State E R} _.
Arguments gain {State E R} _.
Arguments mean_delta {State E R} _.
Arguments at_exit {State E R} _.

(** *** Vocabulary for the runner's properties *)

(** No exploration: [epsilon] is not supplied, or is zero. *)
Definition no_exploration (epsilon : option Q) : Prop :=
  match epsilon with
  | None => True
  | Some eps => eps == 0
  end.

(** The loop variables other than the generator. *)
Definition forget_rng {State E R} (l : Loop State E R) :=
  (env l, solver l, state l, step_count l, episode_gain l, deltas l,
   actions l, raw_rewards l, dones l).

(** What a run shows from outside: the actions taken, the returned pair,
    and the solver it leaves behind. *)
Definition observe {State E R} (o : outcome (Episode State E R))
  : outcome (list Z * Q * option Q * Solver) :=
  match o with
  | Finished ep =>
      Finished (actions (at_exit ep), gain ep, mean_delta ep,
                solver (at_exit ep))
  | Exception => Exception
  | OutOfFuel => OutOfFuel
  end.

(** The bookkeeping of the loop: the gain is the sum of the shaped rewards
    seen so far; in training one Bellman error is recorded per step, in
    evaluation none is and the solver stays [s0]. *)
Definition tracked {State E R} (is_train : bool) (s0 : Solver)
  (l : Loop State E R) : Prop :=
  episode_gain l == NumPy.sum (map modify_reward (raw_rewards l)) /\
  length (actions l) = length (raw_rewards l) /\
  if is_train then length (deltas l) = length (actions l)
  else deltas l = [] /\ solver l = s0.

(** What line 122 does to the solver in one iteration: in training the
    solver is the one [update_theta] leaves and the error it returns is
    recorded; in evaluation the solver is kept and nothing is recorded. *)
Definition recorded {State} (get_features : State -> list Q)
  (is_train : bool) (s : Solver) (st : State) (a : Z) (reward : Q)
  (st' : State) (done : bool) (s' : Solver) (errors : list Q) : Prop :=
  if is_train then
    exists delta,
      update_theta State get_features s st a reward st' done
      = Some (s', delta) /\ errors = [delta]
  else s' = s /\ errors = [].

(** A chain of iterations from the simulator state, solver, generator
    state and observation on the left to those on the right, with the
    actions taken, the raw rewards and terminal flags that [step] returned
    for them, and the errors recorded: every action is the one the
    behaviour policy selects on the current solver and observation, the
    simulator is stepped with it, and the solver sees the shaped reward. *)
Inductive transitions {State} (get_features : State -> list Q)
  {E : Environment State} {R : RandomSource} (is_train : bool)
  (epsilon : option Q)
  : Env E * Solver * Rng R * State -> list Z -> list Q -> list bool ->
    list Q -> Env E * Solver * Rng R * State -> Prop :=
| transitions_nil c : transitions get_features is_train epsilon c [] [] [] [] c
| transitions_cons e s g st a g1 st1 r1 d e1 s1 err acts rs ds errs c :
    select_action State get_features E R s g st epsilon = Some (a, g1) ->
    step E e a = (st1, r1, d, e1) ->
    recorded get_features is_train s st a (modify_reward r1) st1 d s1 err ->
    transitions get_features is_train epsilon (e1, s1, g1, st1)
      acts rs ds errs c ->
    transitions get_features is_train epsilon (e, s, g, st)
      (a :: acts) (r1 :: rs) (d :: ds) (err ++ errs) c.

(** ** The evaluation block of the training loop *)

(** [test_gains.count(-200)] *)
Definition count_failures (test_gains : list Q) : Z :=
  Z.of_nat (length (filter (fun x => Qeq_bool x (-200)) test_gains)).

(** Lines 177-179: the success rate of one evaluation block. *)
Definition evaluation_SR (test_gains : list Q) : Q :=
  let failures := count_failures test_gains in
  let successes := (10 - failures)%Z in
  inject_Z successes / 10.

(** [evaluate_criterion], lines 14-15.  [test_gains] is a Python list, so
    [test_gains != -200] is the boolean [True], and indexing a list with
    [True] reads the element at index 1 (raising when there is none). *)
Definition evaluate_criterion_SR (test_gains : list Q) : option Q :=
  successes <- nth_error test_gains 1 ;;
  Some (successes / 10).

(** ** Smoothing of the error curve *)

Module NumPySignal.

(** [np.ones(n)]: raises on a negative dimension. *)
Definition ones (n : Z) : option (list Q) :=
  if (n <? 0)%Z then None else Some (repeat 1 (Z.to_nat n)).

(** [np.correlate(a, v, 'valid')] for [len(v) <= len(a)]: entry [k] is the
    inner product of [v] with the window of [a] that starts at [k]. *)
Definition correlate_valid (a v : list Q) : list Q :=
  map (fun k => NumPy.dot_sum (skipn k a) v)
    (seq 0 (length a - length v + 1)).

(** [np.convolve(a, v, 'valid')]: the longer operand comes first, an empty
    operand raises, and the result is the correlation with the reversed
    second operand. *)
Definition convolve_valid (a v : list Q) : option (list Q) :=
  let '(a, v) := if Nat.ltb (length a) (length v) then (v, a) else (a, v) in
  match a, v with
  | [], _ => None
  | _, [] => None
  | _, _ => Some (correlate_valid a (rev v))
  end.

End NumPySignal.

(** [moving_average] *)
Definition moving_average (x : list Q) (w : Z) : option (list Q) :=
  o <- NumPySignal.ones w ;;
  c <- NumPySignal.convolve_valid x o ;;
  Some (map (fun y => y / inject_Z w) c).

(** ** Construction of the solver *)

Section Construction.

Variable R : RandomSource.

(** [np.random.uniform(low, high, size=n)]: [n] successive draws. *)
Fixpoint uniform_array (g : Rng R) (low high : Q) (n : nat)
  : list Q * Rng R :=
  match n with
  | O => ([], g)
  | S n' =>
      let '(x, g1) := uniform R g low high in
      let '(xs, g2) := uniform_array g1 low high n' in
      (x :: xs, g2)
  end.

(** [Solver.__init__].  [features_count] is what the feature extractor
    built from [number_of_kernels_per_dim] reports as its number of
    features; a negative size raises. *)
Definition Solver_init (features_count : Z) (number_of_actions : Z)
  (gamma learning_rate : Q) (g : Rng R) : option (Solver * Rng R) :=
  let size := (number_of_actions * features_count)%Z in
  if (size <? 0)%Z then None
  else
    let '(w, g1) := uniform_array g (- (1 # 1000)) 0 (Z.to_nat size) in
    Some (mkSolver number_of_actions features_count w gamma learning_rate,
          g1).

End Construction.

(** ** The training loop *)

Definition and_then {A B} (m : outcome A) (k : A -> outcome B) : outcome B :=
  match m with
  | Finished a => k a
  | Exception => Exception
  | OutOfFuel => OutOfFuel
  end.

Notation "x <<- m ;; k" := (and_then m (fun x => k))
  (at level 61, m at next level, right associativity).

Notation "' p <<- m ;; k" := (and_then m (fun x => match x with p => k end))
  (at level 61, p pattern, m at next level, right associativity).

Definition lift {A} (m : option A) : outcome A :=
  match m with
  | Some a => Finished a
  | None => Exception
  end.

(** Python's [max(a, b)]: the first argument unless the second is larger. *)
Definition py_max (a b : Q) : Q := if Qlt_le_dec a b then b else a.

(** The default [max_steps] of [run_episode]. *)
Definition default_max_steps : Z := 200%Z.

Section Training.

Variable State : Type.
Variable get_features : State -> list Q.
Variable E : Environment State.
Variable R : RandomSource.

(** The observation [[-0.5, 0]] whose value is tracked. *)
Variable s0 : State.

(** A call of [run_episode] that leaves [max_steps] at its default.  The
    loop of such a call leaves within 200 iterations, which is the fuel it
    is given. *)
Definition run_default (e : Env E) (s : Solver) (g : Rng R)
  (is_train : bool) (epsilon : option Q) (render : bool)
  : outcome (Episode State E R) :=
  run_episode State get_features E R (Z.to_nat default_max_steps) e s g
    is_train epsilon default_max_steps render.

(** [[run_episode(env, solver, is_train=False, epsilon=eps)[0]
      for _ in range(n)]]: the gains, and the simulator, solver and
    generator the episodes leave behind. *)
Fixpoint test_episodes (n : nat) (e : Env E) (s : Solver) (g : Rng R)
  (epsilon : option Q) : outcome (list Q * (Env E * Solver * Rng R)) :=
  match n with
  | O => Finished ([], (e, s, g))
  | S n' =>
      ep <<- run_default e s g false epsilon false ;;
      '(gains, rest) <<-
        test_episodes n' (env (at_exit ep)) (solver (at_exit ep))
          (rng (at_exit ep)) epsilon ;;
      Finished (gain ep :: gains, rest)
  end.

(** [evaluate_criterion]: [(mean_test_gain, SR)], with what the episodes
    leave behind. *)
Definition evaluate_criterion (e : Env E) (s : Solver) (g : Rng R)
  : outcome (option Q * Q * (Env E * Solver * Rng R)) :=
  let num_of_states := 10%nat in
  '(test_gains, rest) <<- test_episodes num_of_states e s g None ;;
  SR <<- lift (evaluate_criterion_SR test_gains) ;;
  let mean_test_gain := NumPy.mean test_gains in
  Finished (mean_test_gain, SR, rest).

(** The variables of the training loop. *)
Record Training := mkTraining {
  t_env : Env E;
  t_solver : Solver;
  t_rng : Rng R;
  epsilon_current : Q;
  reward_for_plot : list Q;
  SR_for_plot : list Q;
  initial_state_value_for_plot : list Q;
  avg_bellman_err_for_plot : list (option Q)
}.

(** Lines 174-185: the evaluation block.  The boolean tells whether the
    loop is left by [break]. *)
Definition evaluation_block (t : Training) : outcome (Training * bool) :=
  '(test_gains, (e1, s1, g1)) <<-
    test_episodes 10 (t_env t) (t_solver t) (t_rng t) (Some 0) ;;
  let mean_test_gain := NumPy.mean test_gains in
  let SR := evaluation_SR test_gains in
  let SR_for_plot1 := SR_for_plot t ++ [SR] in
  let solved :=
    match mean_test_gain with
    | Some m => Qle_bool (-75) m
    | None => false
    end in
  if solved then
    ep <<- run_default e1 s1 g1 false None true ;;
    Finished (mkTraining (env (at_exit ep)) (solver (at_exit ep))
                (rng (at_exit ep)) (epsilon_current t) (reward_for_plot t)
                SR_for_plot1 (initial_state_value_for_plot t)
                (avg_bellman_err_for_plot t),
              true)
  else
    Finished (mkTraining e1 s1 g1 (epsilon_current t) (reward_for_plot t)
                SR_for_plot1 (initial_state_value_for_plot t)
                (avg_bellman_err_for_plot t),
              false).

(** Lines 157-185: the body of the loop over [episode_index]. *)
Definition training_episode (epsilon_decrease epsilon_min : Q)
  (episode_index : Z) (t : Training) : outcome (Training * bool) :=
  ep <<- run_default (t_env t) (t_solver t) (t_rng t) true
           (Some (epsilon_current t)) false ;;
  let solver1 := solver (at_exit ep) in
  let epsilon1 := epsilon_current t * epsilon_decrease in
  let epsilon2 := py_max epsilon1 epsilon_min in
  let phi_s0 := get_features s0 in
  s0_greedy_action <<- lift (get_max_action State get_features solver1 s0) ;;
  v <<- lift (get_q_val solver1 phi_s0 s0_greedy_action) ;;
  let t1 :=
    mkTraining (env (at_exit ep)) solver1 (rng (at_exit ep)) epsilon2
      (reward_for_plot t ++ [gain ep]) (SR_for_plot t)
      (initial_state_value_for_plot t ++ [v])
      (avg_bellman_err_for_plot t ++ [mean_delta ep]) in
  if (episode_index mod 10 =? 9)%Z then evaluation_block t1
  else Finished (t1, false).

(** Lines 156-185: the loop, over the values of [episode_index] still to
    come.  The boolean tells whether it was left by [break]. *)
Fixpoint training_loop (epsilon_decrease epsilon_min : Q)
  (indices : list Z) (t : Training) : outcome (Training * bool) :=
  match indices with
  | [] => Finished (t, false)
  | episode_index :: rest =>
      '(t1, stop) <<-
        training_episode epsilon_decrease epsilon_min episode_index t ;;
      if stop then Finished (t1, true)
      else training_loop epsilon_decrease epsilon_min rest t1
  end.

(** [range(1, max_episodes + 1)] *)
Definition episode_indices (max_episodes : Z) : list Z :=
  map Z.of_nat (seq 1 (Z.to_nat max_episodes)).

(** Lines 129-185 and 195 of the script: the solver is constructed with
    the script's constants, trained from exploration rate 0.1, and a last
    episode is rendered.  [features_count] is the feature count of the
    extractor for kernels [[7, 5]]; the simulator and the generator come
    seeded.  Printing and the saved archive are left out. *)
Definition main (features_count : Z) (e : Env E) (g : Rng R)
  : outcome (Training * bool) :=
  let gamma := 999 # 1000 in
  let learning_rate := 5 # 100 in
  let epsilon_start := 1 # 10 in
  let epsilon_decrease := 1 in
  let epsilon_min := 5 # 100 in
  let max_episodes := 100000%Z in
  '(solver0, g1) <<-
    lift (Solver_init R features_count (action_space_n E) gamma
            learning_rate g) ;;
  '(t, stop) <<-
    training_loop epsilon_decrease epsilon_min
      (episode_indices max_episodes)
      (mkTraining e solver0 g1 epsilon_start [] [] [] []) ;;
  ep <<- run_default (t_env t) (t_solver t) (t_rng t) false None true ;;
  Finished (mkTraining (env (at_exit ep)) (solver (at_exit ep))
              (rng (at_exit ep)) (epsilon_current t) (reward_for_plot t)
              (SR_for_plot t) (initial_state_value_for_plot t)
              (avg_bellman_err_for_plot t),
            stop).

End Training.

Arguments t_env {State E R} _.
Arguments t_solver {State E R} _.
Arguments t_rng {State E R} _.
Arguments epsilon_current {State E R} _.
Arguments reward_for_plot {State E R} _.
Arguments SR_for_plot {State E R} _.
Arguments initial_state_value_for_plot {State E R} _.
Arguments avg_bellman_err_for_plot {State E R} _.

(** *** Vocabulary for the training loop's properties *)

(** Two solvers that differ in the values of their weights at most. *)
Definition same_shape (s s' : Solver) : Prop :=
  _actions s' = _actions s /\
  number_of_features s' = number_of_features s /\
  gamma s' = gamma s /\
  learning_rate s' = learning_rate s /\
  length (theta s') = length (theta s).

(** The reward convention the shaping is written for: the simulator's raw
    reward is 1 on the step that signals terminal and 0 on every other. *)
Definition rewards_goal_only {State} (E : Environment State) : Prop :=
  forall e a,
    snd (fst (fst (step E e a)))
    == if snd (fst (step E e a)) then 1 else 0.

(** The exploration rate after [n] passes through lines 160-161. *)
Definition decayed (epsilon_decrease epsilon_min : Q) (n : nat)
  (epsilon : Q) : Q :=
  Nat.iter n (fun e => py_max (e * epsilon_decrease) epsilon_min) epsilon.

(** The recorded curves after some number of episodes: one return, one
    reference value and one mean Bellman error per episode, none of the
    errors not-a-number; one success rate, between 0 and 1, for each of the
    episodes 9, 19, 29, ... *)
Definition curves_in_step {State E R} (t : Training State E R) : Prop :=
  length (initial_state_value_for_plot t) = length (reward_for_plot t) /\
  length (avg_bellman_err_for_plot t) = length (reward_for_plot t) /\
  Z.of_nat (length (SR_for_plot t))
  = ((Z.of_nat (length (reward_for_plot t)) + 1) / 10)%Z /\
  Forall (fun x => x <> None) (avg_bellman_err_for_plot t) /\
  Forall (fun sr => 0 <= sr <= 1) (SR_for_plot t).

(** ** A small instance

    A one-dimensional walk used to run the definitions: the state is an
    integer position, the features are the position and a constant, three
    actions move left, stay or move right, and the goal is position 3. *)

Module Demo.

Definition feats (st : Z) : list Q := [inject_Z st; 1].

Definition s0 : Solver :=
  mkSolver 3 2 [0; 0; 1; 0; 0; 1 # 2] (1 # 2) (1 # 10).

(** [walk]: raw reward 1 on reaching the goal, 0 otherwise. *)
Definition walk : Environment Z :=
  mkEnvironment Z Z (- (12 # 10)) (1 # 2) (7 # 100) 3
    (fun _ _ _ => (0%Z, 0%Z))
    (fun e a =>
       let p := (e + a - 1)%Z in
       ((p, (if (3 <=? p)%Z then 1 else 0), (3 <=? p)%Z), p)).

(** [treadmill]: the same walk without a goal; it never signals terminal. *)
Definition treadmill : Environment Z :=
  mkEnvironment Z Z (- (12 # 10)) (1 # 2) (7 # 100) 3
    (fun _ _ _ => (0%Z, 0%Z))
    (fun e a => let p := (e + a - 1)%Z in ((p, 0, false), p)).

(** A generator that always draws the lower bound. *)
Definition lowest : RandomSource :=
  mkRandomSource nat
    (fun g low _ => (low, S g))
    (fun g n => if (0 <? n)%Z then Some (0%Z, S g) else None).

(** [s0] after the terminal update of action 1 in state 2 with reward -1
    (Bellman error -3). *)
Definition s1 : Solver :=
  mkSolver 3 2 [0 # 10; 0 # 10; 4 # 10; -3 # 10; 0 # 10; 10 # 20]
    (1 # 2) (1 # 10).

Definition l0 : Loop Z walk lowest :=
  mkLoop Z walk lowest 0%Z s0 O 0%Z 0%Z 0 [] [] [] [].

(** The loop variables after one step, at position 2 with the counter
    at 1. *)
Definition l2 : Loop Z walk lowest :=
  mkLoop Z walk lowest 2%Z s0 O 2%Z 1%Z (-1) [] [2%Z] [0] [false].

End Demo.

Module DemoMore.

(** [sprint]: every step reaches the goal, so that an episode is one step
    long. *)
Definition sprint : Environment Z :=
  mkEnvironment Z Z (- (12 # 10)) (1 # 2) (7 # 100) 3
    (fun _ _ _ => (0%Z, 0%Z))
    (fun e _ => (((e + 1)%Z, 1, true), (e + 1)%Z)).

(** A solver with whole-number weights, discount and learning rate. *)
Definition s_whole : Solver := mkSolver 3 2 [0; 0; 1; 0; 0; 0] 1 1.

(** The training loop's variables before the first episode. *)
Definition t0 : Training Z sprint Demo.lowest :=
  mkTraining Z sprint Demo.lowest 0%Z s_whole O (1 # 10) [] [] [] [].

(** Features without a constant entry: state 0 has the all-zero vector. *)
Definition bare (st : Z) : list Q := [inject_Z st; inject_Z st].

End DemoMore.

(** A transition in binary64: the weight is the largest float below 100,
    the feature is 1, the reward is the shaped reward of the goal, and the
    learning rate is the script's 0.05 as Python reads it. *)
Module DemoBinary64.
Import PrimFloat.
Local Open Scope float_scope.

Definition theta : float := 0x1.8ffffffffffffp+6.
Definition features : float := 1.
Definition reward : float := 100.
Definition learning_rate : float := 0x1.999999999999ap-5.
Definition gamma : float := 1.
Definition zero : float := 0.

End DemoBinary64.

(** * Properties *)

(** ** Vectors *)

Module NumPyFacts.
Import NumPy.

Lemma length_zip_plus (a b : list Q) :
  length a = length b -> length (zip_plus a b) = length a.
Proof.
  revert b; induction a as [|x a IH]; intros [|y b] H; simpl in *;
    try discriminate; auto.
Qed.

Lemma length_scale (c : Q) (v : list Q) : length (scale c v) = length v.
Proof. apply length_map. Qed.

Lemma nth_zip_plus (a b : list Q) (i : nat) :
  length a = length b ->
  nth i (zip_plus a b) 0 == nth i a 0 + nth i b 0.
Proof.
  revert b i; induction a as [|x a IH]; intros [|y b] i H; simpl in *;
    try discriminate.
  - destruct i; ring.
  - destruct i; [reflexivity | apply IH; lia].
Qed.

Lemma nth_scale (c : Q) (v : list Q) (i : nat) :
  nth i (scale c v) 0 == c * nth i v 0.
Proof.
  revert i; induction v as [|x v IH]; intros [|i]; simpl;
    try ring; try reflexivity.
  apply IH.
Qed.

Lemma firstn_zip_plus (n : nat) (a b : list Q) :
  firstn n (zip_plus a b) = zip_plus (firstn n a) (firstn n b).
Proof.
  revert a b; induction n as [|n IH]; intros [|x a] [|y b]; simpl; auto.
  now rewrite IH.
Qed.

Lemma skipn_zip_plus (n : nat) (a b : list Q) :
  length a = length b ->
  skipn n (zip_plus a b) = zip_plus (skipn n a) (skipn n b).
Proof.
  revert a b; induction n as [|n IH]; intros [|x a] [|y b] H; simpl in *;
    try discriminate; auto.
Qed.

(** The inner product with a vector moved along the first operand. *)
Lemma dot_sum_move (phi w : list Q) (c : Q) :
  length phi = length w ->
  dot_sum phi (zip_plus w (scale c phi)) == dot_sum phi w + c * dot_sum phi phi.
Proof.
  revert w; induction phi as [|x phi IH]; intros [|y w] H; simpl in *;
    try discriminate.
  - ring.
  - rewrite IH by lia. ring.
Qed.

Lemma dot_sum_self_nonneg (phi : list Q) : 0 <= dot_sum phi phi.
Proof.
  induction phi as [|x phi IH]; simpl; [lra|].
  assert (0 <= x * x) by nra. lra.
Qed.

Lemma nth_block_vector (p q : nat) (phi : list Q) (i : nat) :
  (i < p \/ p + length phi <= i)%nat ->
  nth i (repeat 0 p ++ phi ++ repeat 0 q) 0 = 0.
Proof.
  intros [H | H].
  - rewrite app_nth1 by (rewrite repeat_length; lia). apply nth_repeat.
  - rewrite app_nth2 by (rewrite repeat_length; lia).
    rewrite repeat_length.
    rewrite app_nth2 by lia. apply nth_repeat.
Qed.

Lemma firstn_repeat_le {A} (x : A) (n m : nat) :
  (n <= m)%nat -> firstn n (repeat x m) = repeat x n.
Proof.
  revert m; induction n as [|n IH]; intros [|m] H; simpl; auto; try lia.
  f_equal. apply IH. lia.
Qed.

Lemma skipn_repeat_le {A} (x : A) (n m : nat) :
  skipn n (repeat x m) = repeat x (m - n).
Proof.
  revert m; induction n as [|n IH]; intros [|m]; simpl; auto.
Qed.

(** A slice whose bounds delimit block [a] of [A] blocks of width [F]. *)
Lemma slice_bounds_block {T} (l : list T) (A F a : Z) :
  Z.of_nat (length l) = (A * F)%Z -> (0 <= F)%Z -> (0 <= a < A)%Z ->
  slice_bounds l (a * F) ((1 + a) * F)
  = (Z.to_nat (a * F), Z.to_nat F).
Proof.
  intros Hl HF Ha. unfold slice_bounds, slice_index. rewrite Hl.
  assert (0 <= a * F)%Z by nia.
  assert (0 <= (1 + a) * F)%Z by nia.
  destruct (Z.ltb_spec (a * F) 0); [lia|].
  destruct (Z.ltb_spec ((1 + a) * F) 0); [lia|].
  assert (a * F <= A * F)%Z by nia.
  assert ((1 + a) * F <= A * F)%Z by nia.
  rewrite !Z.min_l by lia. f_equal. f_equal. lia.
Qed.

Lemma slice_block {T} (l : list T) (A F a : Z) :
  Z.of_nat (length l) = (A * F)%Z -> (0 <= F)%Z -> (0 <= a < A)%Z ->
  slice l (a * F) ((1 + a) * F)
  = firstn (Z.to_nat F) (skipn (Z.to_nat (a * F)) l).
Proof.
  intros. unfold slice. now rewrite (slice_bounds_block l A F a).
Qed.

Lemma length_block {T} (l : list T) (A F a : Z) :
  Z.of_nat (length l) = (A * F)%Z -> (0 <= F)%Z -> (0 <= a < A)%Z ->
  length (firstn (Z.to_nat F) (skipn (Z.to_nat (a * F)) l)) = Z.to_nat F.
Proof.
  intros Hl HF Ha. rewrite length_firstn, length_skipn.
  assert ((1 + a) * F <= A * F)%Z by nia. nia.
Qed.

Lemma Forall2_Qeq_nth (l l' : list Q) :
  length l = length l' ->
  (forall i, (i < length l)%nat -> nth i l 0 == nth i l' 0) ->
  Forall2 Qeq l l'.
Proof.
  revert l'; induction l as [|x l IH]; intros [|y l'] Hlen Hnth;
    simpl in *; try discriminate; constructor.
  - apply (Hnth O). lia.
  - apply IH; [lia|]. intros i Hi. apply (Hnth (S i)). lia.
Qed.

End NumPyFacts.

(** ** The first-maximum convention of [np.argmax] *)

Module ArgMax.
Import NumPy.

Lemma first_max_unique (l : list Q) (k k' : Z) :
  first_max l k -> first_max l k' -> k = k'.
Proof.
  intros (Hk & Hmax & Hlt) (Hk' & Hmax' & Hlt').
  destruct (Z.lt_trichotomy k k') as [H | [H | H]]; auto; exfalso.
  - specialize (Hlt' (Z.to_nat k) ltac:(lia)).
    specialize (Hmax (Z.to_nat k') ltac:(lia)). lra.
  - specialize (Hlt (Z.to_nat k') ltac:(lia)).
    specialize (Hmax' (Z.to_nat k) ltac:(lia)). lra.
Qed.

Lemma first_max_snoc_keep (pre : list Q) (k : Z) (x : Q) :
  first_max pre k -> x <= nth (Z.to_nat k) pre 0 ->
  first_max (pre ++ [x]) k.
Proof.
  intros (Hk & Hmax & Hlt) Hx.
  assert (Hn : nth (Z.to_nat k) (pre ++ [x]) 0 = nth (Z.to_nat k) pre 0)
    by (apply app_nth1; lia).
  split; [rewrite length_app; simpl; lia | split].
  - intros j Hj. rewrite Hn. rewrite length_app in Hj; simpl in Hj.
    destruct (Nat.eq_dec j (length pre)) as [-> | Hne].
    + rewrite app_nth2, Nat.sub_diag by lia. exact Hx.
    + rewrite app_nth1 by lia. apply Hmax. lia.
  - intros j Hj. rewrite Hn. rewrite app_nth1 by lia. now apply Hlt.
Qed.

Lemma first_max_snoc_new (pre : list Q) (k : Z) (x : Q) :
  first_max pre k -> nth (Z.to_nat k) pre 0 < x ->
  first_max (pre ++ [x]) (Z.of_nat (length pre)).
Proof.
  intros (Hk & Hmax & Hlt) Hx.
  assert (Hn : nth (Z.to_nat (Z.of_nat (length pre))) (pre ++ [x]) 0 = x).
  { rewrite Nat2Z.id, app_nth2, Nat.sub_diag by lia. reflexivity. }
  split; [rewrite length_app; simpl; lia | split].
  - intros j Hj. rewrite Hn. rewrite length_app in Hj; simpl in Hj.
    destruct (Nat.eq_dec j (length pre)) as [-> | Hne].
    + rewrite app_nth2, Nat.sub_diag by lia. simpl. lra.
    + rewrite app_nth1 by lia.
      specialize (Hmax j ltac:(lia)). lra.
  - intros j Hj. rewrite Hn. rewrite Nat2Z.id in Hj.
    rewrite app_nth1 by lia. specialize (Hmax j Hj). lra.
Qed.

Lemma argmax_from_first_max (l pre : list Q) (besti : Z) (best : Q) :
  first_max pre besti -> nth (Z.to_nat besti) pre 0 = best ->
  first_max (pre ++ l)
    (argmax_from besti best (Z.of_nat (length pre)) l).
Proof.
  revert pre besti best.
  induction l as [|x t IH]; intros pre besti best Hpre Hbest; simpl.
  - now rewrite app_nil_r.
  - replace (pre ++ x :: t) with ((pre ++ [x]) ++ t)
      by (rewrite <- app_assoc; reflexivity).
    replace (Z.of_nat (length pre) + 1)%Z
      with (Z.of_nat (length (pre ++ [x])))
      by (rewrite length_app; simpl; lia).
    destruct (Qlt_le_dec best x) as [Hlt | Hle]; apply IH.
    + apply first_max_snoc_new with (k := besti); auto. now rewrite Hbest.
    + rewrite Nat2Z.id, app_nth2, Nat.sub_diag by lia. reflexivity.
    + apply first_max_snoc_keep; auto. now rewrite Hbest.
    + rewrite <- Hbest. apply app_nth1. destruct Hpre. lia.
Qed.

Lemma argmax_first_max (l : list Q) :
  l <> [] -> exists k, argmax l = Some k /\ first_max l k.
Proof.
  destruct l as [|x t]; [congruence | intros _].
  eexists; split; [reflexivity|].
  apply (argmax_from_first_max t [x] 0%Z x); [|reflexivity].
  split; [simpl; lia | split]; simpl.
  - intros [|j] Hj; [lra | lia].
  - intros j Hj. lia.
Qed.

End ArgMax.

(** ** The solver's operations on a consistent solver *)

Section SolverFacts.
Import NumPy NumPyFacts ArgMax.

Variable State : Type.
Variable get_features : State -> list Q.

Lemma consistent_set_theta (s : Solver) (w : list Q) :
  consistent get_features s -> length w = length (theta s) -> consistent get_features (set_theta s w).
Proof.
  intros (HA & HF & Hl & Hf) Hw. unfold consistent; simpl.
  rewrite Hw. auto.
Qed.

Lemma get_q_val_in_range (s : Solver) (features : list Q) (a : Z) :
  consistent get_features s -> in_range s a ->
  Z.of_nat (length features) = number_of_features s ->
  get_q_val s features a = Some (action_value s features a).
Proof.
  intros (HA & HF & Hl & Hf) Ha Hlen.
  unfold get_q_val, action_value, block.
  rewrite (slice_block (theta s) (_actions s)) by assumption.
  unfold dot.
  rewrite (length_block (theta s) (_actions s)) by assumption.
  replace (length features) with (Z.to_nat (number_of_features s)) by lia.
  now rewrite Nat.eqb_refl.
Qed.

Lemma get_q_val_state (s : Solver) (st : State) (a : Z) :
  consistent get_features s -> in_range s a ->
  get_q_val s (get_features st) a
  = Some (action_value s (get_features st) a).
Proof.
  intros Hc Ha. apply get_q_val_in_range; auto. apply Hc.
Qed.

Lemma mapM_total {A B} (f : A -> option B) (g : A -> B) (l : list A) :
  (forall a, In a l -> f a = Some (g a)) -> mapM f l = Some (map g l).
Proof.
  induction l as [|a t IH]; intros H; simpl; auto.
  rewrite (H a) by (now left). simpl.
  rewrite IH by (intros; apply H; now right). reflexivity.
Qed.

Lemma in_range_range (n a : Z) : In a (range n) -> (0 <= a < n)%Z.
Proof.
  unfold range. rewrite in_map_iff. intros (k & <- & Hk).
  apply in_seq in Hk. lia.
Qed.

Lemma nth_range (n : Z) (j : nat) :
  (j < Z.to_nat n)%nat -> nth j (range n) 0%Z = Z.of_nat j.
Proof.
  intros H. unfold range.
  rewrite (nth_indep _ 0%Z (Z.of_nat 0))
    by (rewrite length_map, length_seq; lia).
  rewrite map_nth, seq_nth by lia. reflexivity.
Qed.

Lemma length_range (n : Z) : length (range n) = Z.to_nat n.
Proof. unfold range. now rewrite length_map, length_seq. Qed.

Lemma get_all_q_vals_consistent (s : Solver) (features : list Q) :
  consistent get_features s ->
  Z.of_nat (length features) = number_of_features s ->
  get_all_q_vals s features
  = Some (map (action_value s features) (range (_actions s))).
Proof.
  intros Hc Hlen. unfold get_all_q_vals, zeros.
  destruct (Z.ltb_spec (_actions s) 0); [destruct Hc; lia | simpl].
  apply mapM_total. intros a Ha.
  apply get_q_val_in_range; auto. now apply in_range_range.
Qed.

Lemma nth_all_q_vals (s : Solver) (features : list Q) (a : Z) :
  in_range s a ->
  nth (Z.to_nat a) (map (action_value s features) (range (_actions s))) 0
  = action_value s features a.
Proof.
  intros Ha.
  rewrite (nth_indep _ 0 (action_value s features 0%Z))
    by (rewrite length_map, length_range; unfold in_range in Ha; lia).
  rewrite map_nth, nth_range by (unfold in_range in Ha; lia).
  f_equal. unfold in_range in Ha. lia.
Qed.

(** The greedy action exists, is in range, and is the first maximum of
    the action values. *)
Lemma get_max_action_consistent (s : Solver) (st : State) :
  consistent get_features s ->
  exists a, get_max_action State get_features s st = Some a /\ in_range s a /\
    first_max (map (action_value s (get_features st)) (range (_actions s))) a.
Proof.
  intros Hc. unfold get_max_action.
  rewrite get_all_q_vals_consistent by (auto; apply Hc). simpl.
  destruct (argmax_first_max
              (map (action_value s (get_features st)) (range (_actions s))))
    as (k & Hk & Hfm).
  { intros Hnil. apply (f_equal (@length Q)) in Hnil.
    rewrite length_map, length_range in Hnil. simpl in Hnil.
    destruct Hc. lia. }
  exists k. split; [exact Hk | split; [|exact Hfm]].
  destruct Hfm as (Hr & _). rewrite length_map, length_range in Hr.
  unfold in_range. destruct Hc. lia.
Qed.

Lemma get_state_action_features_in_range (s : Solver) (st : State) (a : Z) :
  consistent get_features s -> in_range s a ->
  get_state_action_features State get_features s st a
  = Some (block_vector s a (get_features st)).
Proof.
  intros (HA & HF & Hl & Hf) Ha. unfold in_range in Ha.
  unfold get_state_action_features, zeros, block_vector.
  rewrite Hf.
  set (F := number_of_features s) in *. set (A := _actions s) in *.
  destruct (Z.ltb_spec (F * A) 0); [nia | simpl].
  unfold set_slice.
  rewrite (slice_bounds_block _ A F a)
    by (rewrite ?repeat_length; lia || nia).
  replace (length (get_features st)) with (Z.to_nat F)
    by (specialize (Hf st); lia).
  rewrite Nat.eqb_refl.
  assert ((1 + a) * F <= A * F)%Z by nia.
  assert (0 <= a * F)%Z by nia.
  rewrite firstn_repeat_le by nia.
  rewrite skipn_repeat_le.
  do 4 f_equal. lia.
Qed.

Lemma length_block_vector (s : Solver) (st : State) (a : Z) :
  consistent get_features s -> in_range s a ->
  length (block_vector s a (get_features st)) = length (theta s).
Proof.
  intros (HA & HF & Hl & Hf) Ha. unfold in_range in Ha.
  unfold block_vector. rewrite !length_app, !repeat_length.
  specialize (Hf st).
  assert (0 <= a * number_of_features s)%Z by nia.
  assert (0 <= (_actions s - 1 - a) * number_of_features s)%Z by nia.
  lia.
Qed.

Lemma block_of_block_vector (s : Solver) (a : Z) (phi : list Q) :
  (0 <= a * number_of_features s)%Z ->
  Z.of_nat (length phi) = number_of_features s ->
  firstn (Z.to_nat (number_of_features s))
    (skipn (Z.to_nat (a * number_of_features s)) (block_vector s a phi))
  = phi.
Proof.
  intros Ha Hphi. unfold block_vector.
  rewrite skipn_app, skipn_repeat_le, repeat_length, Nat.sub_diag. simpl.
  rewrite firstn_app.
  replace (Z.to_nat (number_of_features s)) with (length phi) by lia.
  rewrite firstn_all, Nat.sub_diag. simpl. apply app_nil_r.
Qed.

(** What one update does to a consistent solver, for a taken action in
    range and the greedy next action [a']. *)
Lemma update_theta_in_range (s : Solver) (st : State) (a : Z) (r : Q)
  (st' : State) (done : bool) (a' : Z) :
  consistent get_features s -> in_range s a ->
  get_max_action State get_features s st' = Some a' -> in_range s a' ->
  let target :=
    if done then r
    else r + gamma s * action_value s (get_features st') a' in
  let delta := target - action_value s (get_features st) a in
  update_theta State get_features s st a r st' done
  = Some (set_theta s
            (zip_plus (theta s)
               (scale (learning_rate s * delta)
                  (block_vector s a (get_features st)))),
          delta).
Proof.
  intros Hc Ha Hmax Ha' target delta. unfold update_theta.
  rewrite get_q_val_state by assumption. simpl.
  rewrite get_state_action_features_in_range by assumption. simpl.
  assert (Hadd : forall c,
    add (theta s) (scale c (block_vector s a (get_features st)))
    = Some (zip_plus (theta s)
              (scale c (block_vector s a (get_features st))))).
  { intros c. unfold add.
    rewrite length_scale, length_block_vector by assumption.
    now rewrite Nat.eqb_refl. }
  destruct done; simpl.
  - rewrite Hadd. reflexivity.
  - rewrite Hmax. simpl. rewrite get_q_val_state by assumption. simpl.
    rewrite Hadd. reflexivity.
Qed.

Lemma update_theta_inv (s s' : Solver) (st : State) (a : Z) (r : Q)
  (st' : State) (done : bool) (delta : Q) :
  consistent get_features s -> in_range s a ->
  update_theta State get_features s st a r st' done = Some (s', delta) ->
  s' = set_theta s
         (zip_plus (theta s)
            (scale (learning_rate s * delta)
               (block_vector s a (get_features st)))).
Proof.
  intros Hc Ha Hup.
  destruct (get_max_action_consistent s st' Hc) as (a' & Hmax & Ha' & _).
  rewrite (update_theta_in_range s st a r st' done a') in Hup by assumption.
  now inversion Hup.
Qed.

Lemma update_theta_consistent (s s' : Solver) (st : State) (a : Z) (r : Q)
  (st' : State) (done : bool) (delta : Q) :
  consistent get_features s -> in_range s a ->
  update_theta State get_features s st a r st' done = Some (s', delta) ->
  consistent get_features s' /\ _actions s' = _actions s.
Proof.
  intros Hc Ha Hup.
  rewrite (update_theta_inv _ _ _ _ _ _ _ _ Hc Ha Hup).
  split; [|reflexivity].
  apply consistent_set_theta; auto.
  rewrite length_zip_plus; auto.
  now rewrite length_scale, length_block_vector.
Qed.

End SolverFacts.

(** ** The episode loop *)

Section EpisodeFacts.
Import NumPy NumPyFacts.

Variable State : Type.
Variable get_features : State -> list Q.
Variable E : Environment State.
Variable R : RandomSource.

(** The parts of a successful iteration. *)
Lemma iteration_inv (is_train : bool) (epsilon : option Q)
  (l l1 : Loop State E R) (done : bool) :
  iteration State get_features E R is_train epsilon l = Some (l1, done) ->
  exists action g1 next_state reward1 env1 solver1 deltas1,
    select_action State get_features E R (solver l) (rng l)
      (state l) epsilon = Some (action, g1) /\
    step E (env l) action = (next_state, reward1, done, env1) /\
    (if is_train then
       exists delta,
         update_theta State get_features (solver l) (state l)
           action (modify_reward reward1) next_state done
         = Some (solver1, delta) /\
         deltas1 = deltas l ++ [delta]
     else solver1 = solver l /\ deltas1 = deltas l) /\
    l1 = mkLoop State E R env1 solver1 g1 next_state
           (step_count l + 1)%Z
           (episode_gain l + modify_reward reward1) deltas1
           (actions l ++ [action]) (raw_rewards l ++ [reward1])
           (dones l ++ [done]).
Proof.
  unfold iteration. intros H.
  destruct (select_action State get_features E R (solver l)
              (rng l) (state l) epsilon) as [[action g1]|] eqn:Hsel;
    simpl in H; [|discriminate].
  destruct (step E (env l) action) as [[[next_state reward1] d] env1]
    eqn:Hstep.
  destruct is_train.
  - destruct (update_theta State get_features (solver l)
                (state l) action (modify_reward reward1) next_state d)
      as [[s1 delta]|] eqn:Hup; simpl in H; [|discriminate].
    inversion H; subst.
    exists action, g1, next_state, reward1, env1, s1,
      (deltas l ++ [delta]).
    split; [reflexivity|]. split; [exact Hstep|].
    split; [|reflexivity]. exists delta. split; [exact Hup | reflexivity].
  - simpl in H. inversion H; subst.
    exists action, g1, next_state, reward1, env1, (solver l),
      (deltas l).
    split; [reflexivity|]. split; [exact Hstep|].
    split; [split|]; reflexivity.
Qed.

Lemma iteration_step_count (is_train : bool) (epsilon : option Q)
  (l l1 : Loop State E R) (done : bool) :
  iteration State get_features E R is_train epsilon l = Some (l1, done) ->
  step_count l1 = (step_count l + 1)%Z /\
  dones l1 = dones l ++ [done] /\
  length (actions l1) = S (length (actions l)).
Proof.
  intros H. apply iteration_inv in H.
  destruct H as (a & g1 & ns & r1 & e1 & s1 & d1 & _ & _ & _ & ->). simpl.
  rewrite length_app. simpl. repeat split; lia.
Qed.

(** One unfolding of the loop. *)
Lemma episode_loop_unfold (fuel : nat) (is_train : bool)
  (epsilon : option Q) (max_steps : Z) (l l1 : Loop State E R)
  (done : bool) :
  iteration State get_features E R is_train epsilon l = Some (l1, done) ->
  episode_loop State get_features E R (S fuel) is_train epsilon max_steps l
  = if done || (step_count l + 1 =? max_steps)%Z then
      Finished (mkEpisode State E R (episode_gain l1)
                  (mean (deltas l1)) l1)
    else episode_loop State get_features E R fuel is_train epsilon
           max_steps l1.
Proof.
  intros H. simpl. rewrite H.
  destruct (iteration_step_count _ _ _ _ _ H) as (-> & _). reflexivity.
Qed.

(** A finished loop has gone through a chain of iterations, and its
    records are those of the chain. *)
Lemma episode_loop_transitions (fuel : nat) (is_train : bool)
  (epsilon : option Q) (max_steps : Z) (l : Loop State E R)
  (ep : Episode State E R) :
  episode_loop State get_features E R fuel is_train epsilon max_steps l
  = Finished ep ->
  exists acts rs ds errs,
    actions (at_exit ep) = actions l ++ acts /\
    raw_rewards (at_exit ep) = raw_rewards l ++ rs /\
    dones (at_exit ep) = dones l ++ ds /\
    deltas (at_exit ep) = deltas l ++ errs /\
    transitions get_features is_train epsilon
      (env l, solver l, rng l, state l) acts rs ds errs
      (env (at_exit ep), solver (at_exit ep), rng (at_exit ep),
       state (at_exit ep)).
Proof.
  revert l. induction fuel as [|fuel IH]; intros l H; [discriminate|].
  destruct (iteration State get_features E R is_train epsilon l)
    as [[l1 done]|] eqn:Hit; [|simpl in H; rewrite Hit in H; discriminate].
  rewrite (episode_loop_unfold _ _ _ _ _ _ _ Hit) in H.
  apply iteration_inv in Hit.
  destruct Hit as (a & g1 & ns & r1 & e1 & s1 & d1 & Hsel & Hstep & Hrec
                   & Hl1).
  assert (Hone : exists err,
            d1 = deltas l ++ err /\
            recorded get_features is_train (solver l) (state l) a
              (modify_reward r1) ns done s1 err).
  { unfold recorded. destruct is_train.
    - destruct Hrec as (delta & Hup & ->). exists [delta].
      split; [reflexivity|]. exists delta. split; [exact Hup | reflexivity].
    - destruct Hrec as [-> ->]. exists []. rewrite app_nil_r.
      split; [reflexivity | split; reflexivity]. }
  destruct Hone as (err & -> & Hone).
  destruct (done || (step_count l + 1 =? max_steps)%Z).
  - inversion H; subst ep l1. simpl.
    exists [a], [r1], [done], (err ++ []).
    rewrite app_nil_r at 1.
    repeat (split; [reflexivity|]).
    eapply transitions_cons; eauto. apply transitions_nil.
  - destruct (IH l1 H) as (acts & rs & ds & errs & Ha & Hr & Hd & He & Ht).
    subst l1. simpl in *.
    exists (a :: acts), (r1 :: rs), (done :: ds), (err ++ errs).
    rewrite Ha, Hr, Hd, He, <- !app_assoc.
    repeat (split; [reflexivity|]).
    eapply transitions_cons; eauto.
Qed.

(** With the counter below a budget it can still reach, the loop has left
    by the time the counter equals the budget. *)
Lemma episode_loop_within_budget (fuel : nat) (is_train : bool)
  (epsilon : option Q) (max_steps : Z) (l : Loop State E R) :
  (step_count l < max_steps)%Z ->
  (max_steps - step_count l <= Z.of_nat fuel)%Z ->
  episode_loop State get_features E R fuel is_train epsilon max_steps l
  <> OutOfFuel /\
  forall ep,
    episode_loop State get_features E R fuel is_train epsilon max_steps l
    = Finished ep ->
    (step_count l < step_count (at_exit ep) <= max_steps)%Z /\
    (length (actions (at_exit ep))
     = length (actions l)
       + Z.to_nat (step_count (at_exit ep) - step_count l))%nat /\
    (last (dones (at_exit ep)) false = true \/
     step_count (at_exit ep) = max_steps).
Proof.
  revert l. induction fuel as [|fuel IH]; intros l Hlt Hfuel; [lia|].
  destruct (iteration State get_features E R is_train epsilon l)
    as [[l1 done]|] eqn:Hit.
  - rewrite (episode_loop_unfold _ _ _ _ _ _ _ Hit).
    destruct (iteration_step_count _ _ _ _ _ Hit) as (Hs & Hd & Ha).
    destruct (done || (step_count l + 1 =? max_steps)%Z) eqn:Hexit.
    + split; [discriminate|]. intros ep Hep. inversion Hep; subst. simpl.
      split; [lia|]. split; [rewrite Ha, Hs; lia|].
      apply orb_true_iff in Hexit. destruct Hexit as [-> | Heq].
      * left. rewrite Hd. apply last_last.
      * right. apply Z.eqb_eq in Heq. lia.
    + apply orb_false_iff in Hexit. destruct Hexit as [_ Hne].
      apply Z.eqb_neq in Hne.
      destruct (IH l1) as [Hnot Hfin]; [lia | lia |].
      split; [exact Hnot|]. intros ep Hep.
      destruct (Hfin ep Hep) as (H1 & H2 & H3).
      split; [lia|]. split; [rewrite H2, Ha; lia | exact H3].
  - simpl. rewrite Hit. split; [discriminate|]. intros ep Hep. discriminate.
Qed.

(** Past the budget, only the simulator's terminal flag ends the loop. *)
Lemma episode_loop_past_budget (fuel : nat) (is_train : bool)
  (epsilon : option Q) (max_steps : Z) (l : Loop State E R) :
  (forall e a, snd (fst (step E e a)) = false) ->
  (max_steps <= step_count l)%Z ->
  forall ep,
    episode_loop State get_features E R fuel is_train epsilon max_steps l
    <> Finished ep.
Proof.
  intros Hnever. revert l.
  induction fuel as [|fuel IH]; intros l Hge ep; [discriminate|].
  destruct (iteration State get_features E R is_train epsilon l)
    as [[l1 done]|] eqn:Hit.
  - rewrite (episode_loop_unfold _ _ _ _ _ _ _ Hit).
    destruct (iteration_step_count _ _ _ _ _ Hit) as (Hs & _).
    assert (done = false) as ->.
    { apply iteration_inv in Hit.
      destruct Hit as (a & g1 & ns & r1 & e1 & s1 & d1 & _ & Hstep & _).
      specialize (Hnever (env l) a). rewrite Hstep in Hnever.
      exact Hnever. }
    destruct (Z.eqb_spec (step_count l + 1) max_steps); [lia|].
    simpl. apply IH. lia.
  - simpl. rewrite Hit. discriminate.
Qed.

(** *** Progress on a consistent solver *)

Lemma select_action_total (s : Solver) (g : Rng R) (st : State)
  (epsilon : option Q) :
  consistent get_features s -> rng_in_range R ->
  action_space_n E = _actions s ->
  exists a g', select_action State get_features E R s g st epsilon
               = Some (a, g') /\ in_range s a.
Proof.
  intros Hc [_ Hchoice] HA.
  destruct (get_max_action_consistent State get_features s st Hc)
    as (a & Hmax & Ha & _).
  unfold select_action. destruct epsilon as [eps|].
  - destruct (uniform R g 0 1) as [u g1].
    destruct (Qlt_le_dec u eps).
    + destruct (Hchoice g1 (action_space_n E)) as (b & g2 & Hb & Hr).
      { rewrite HA. destruct Hc. lia. }
      exists b, g2. split; [exact Hb|]. unfold in_range. now rewrite <- HA.
    + rewrite Hmax. simpl. eauto.
  - rewrite Hmax. simpl. eauto.
Qed.

Lemma iteration_total (is_train : bool) (epsilon : option Q)
  (l : Loop State E R) :
  consistent get_features (solver l) -> rng_in_range R ->
  action_space_n E = _actions (solver l) ->
  exists l1 done,
    iteration State get_features E R is_train epsilon l = Some (l1, done) /\
    consistent get_features (solver l1) /\
    _actions (solver l1) = _actions (solver l).
Proof.
  intros Hc Hr HA.
  destruct (select_action_total (solver l) (rng l) (state l) epsilon Hc Hr HA)
    as (a & g1 & Hsel & Ha).
  unfold iteration. rewrite Hsel. simpl.
  destruct (step E (env l) a) as [[[ns r1] d] e1].
  destruct is_train.
  - destruct (get_max_action_consistent State get_features (solver l) ns Hc)
      as (a' & Hmax & Ha' & _).
    pose proof (update_theta_in_range State get_features (solver l) (state l)
                  a (modify_reward r1) ns d a' Hc Ha Hmax Ha') as Hup.
    simpl in Hup.
    destruct (update_theta_consistent State get_features _ _ _ _ _ _ _ _
                Hc Ha Hup) as [Hc1 HA1].
    rewrite Hup. simpl. eexists _, d. split; [reflexivity|]. simpl.
    split; [exact Hc1 | exact HA1].
  - simpl. eexists _, d. split; [reflexivity|]. simpl. auto.
Qed.

Lemma episode_loop_finishes (fuel : nat) (is_train : bool)
  (epsilon : option Q) (max_steps : Z) (l : Loop State E R) :
  consistent get_features (solver l) -> rng_in_range R ->
  action_space_n E = _actions (solver l) ->
  (step_count l < max_steps)%Z ->
  (max_steps - step_count l <= Z.of_nat fuel)%Z ->
  exists ep,
    episode_loop State get_features E R fuel is_train epsilon max_steps l
    = Finished ep.
Proof.
  intros Hc Hr. revert l Hc.
  induction fuel as [|fuel IH]; intros l Hc HA Hlt Hfuel; [lia|].
  destruct (iteration_total is_train epsilon l Hc Hr HA)
    as (l1 & done & Hit & Hc1 & HA1).
  rewrite (episode_loop_unfold _ _ _ _ _ _ _ Hit).
  destruct (iteration_step_count _ _ _ _ _ Hit) as (Hs & _).
  destruct (done || (step_count l + 1 =? max_steps)%Z) eqn:Hexit;
    [eauto|].
  apply orb_false_iff in Hexit. destruct Hexit as [_ Hne].
  apply Z.eqb_neq in Hne.
  apply IH; auto; try lia; congruence.
Qed.

Lemma run_episode_finishes (fuel : nat) (e : Env E) (s : Solver)
  (g : Rng R) (is_train : bool) (epsilon : option Q) (max_steps : Z)
  (render : bool) :
  consistent get_features s -> rng_in_range R ->
  action_space_n E = _actions s ->
  (1 <= max_steps)%Z -> (Z.to_nat max_steps <= fuel)%nat ->
  exists ep,
    run_episode State get_features E R fuel e s g is_train epsilon
      max_steps render = Finished ep.
Proof.
  intros Hc Hr HA Hmax Hfuel. unfold run_episode.
  destruct (start_state State E R e g is_train) as [[st e1] g1].
  apply episode_loop_finishes; simpl; auto; lia.
Qed.

(** *** Bookkeeping *)

Lemma sum_snoc (l : list Q) (x : Q) : sum (l ++ [x]) == sum l + x.
Proof.
  induction l as [|y l IH]; simpl; [ring|]. rewrite IH. ring.
Qed.

Lemma iteration_tracked (is_train : bool) (s0 : Solver)
  (epsilon : option Q) (l l1 : Loop State E R) (done : bool) :
  tracked is_train s0 l ->
  iteration State get_features E R is_train epsilon l = Some (l1, done) ->
  tracked is_train s0 l1.
Proof.
  intros (Hg & Hlen & Hd) Hit. apply iteration_inv in Hit.
  destruct Hit as (a & g1 & ns & r1 & e1 & s1 & d1 & _ & _ & Hmode & ->).
  unfold tracked; simpl.
  split; [|split].
  - rewrite map_app. simpl. rewrite sum_snoc, Hg. reflexivity.
  - rewrite !length_app. simpl. lia.
  - destruct is_train.
    + destruct Hmode as (delta & _ & ->). rewrite !length_app. simpl. lia.
    + destruct Hmode as [-> ->]. exact Hd.
Qed.

Lemma episode_loop_tracked (fuel : nat) (is_train : bool) (s0 : Solver)
  (epsilon : option Q) (max_steps : Z) (l : Loop State E R)
  (ep : Episode State E R) :
  tracked is_train s0 l ->
  episode_loop State get_features E R fuel is_train epsilon max_steps l
  = Finished ep ->
  tracked is_train s0 (at_exit ep) /\
  gain ep = episode_gain (at_exit ep) /\
  mean_delta ep = mean (deltas (at_exit ep)) /\
  (length (actions l) < length (actions (at_exit ep)))%nat.
Proof.
  revert l. induction fuel as [|fuel IH]; intros l Ht Hep; [discriminate|].
  destruct (iteration State get_features E R is_train epsilon l)
    as [[l1 done]|] eqn:Hit.
  - rewrite (episode_loop_unfold _ _ _ _ _ _ _ Hit) in Hep.
    pose proof (iteration_tracked _ _ _ _ _ _ Ht Hit) as Ht1.
    destruct (iteration_step_count _ _ _ _ _ Hit) as (_ & _ & Ha).
    destruct (done || (step_count l + 1 =? max_steps)%Z).
    + inversion Hep; subst. simpl.
      split; [exact Ht1|]. split; [reflexivity|]. split; [reflexivity|]. lia.
    + destruct (IH l1 Ht1 Hep) as (H1 & H2 & H3 & H4).
      split; [exact H1|]. split; [exact H2|]. split; [exact H3|]. lia.
  - simpl in Hep. rewrite Hit in Hep. discriminate.
Qed.

(** *** Greedy runs do not depend on the generator *)

Lemma select_action_greedy (s : Solver) (g : Rng R) (st : State)
  (epsilon : option Q) :
  rng_in_range R -> no_exploration epsilon ->
  exists g',
    select_action State get_features E R s g st epsilon
    = (a <- get_max_action State get_features s st ;; Some (a, g')).
Proof.
  intros [Hlow _] Heps. unfold select_action.
  destruct epsilon as [eps|]; [|eauto].
  simpl in Heps. specialize (Hlow g 0 1 ltac:(lra)).
  destruct (uniform R g 0 1) as [u g1]. simpl in Hlow.
  destruct (Qlt_le_dec u eps) as [Hlt | _]; [|eauto].
  exfalso. rewrite Heps in Hlt. lra.
Qed.

Lemma iteration_eval_agree (epsilon epsilon' : option Q)
  (l l' : Loop State E R) :
  rng_in_range R -> no_exploration epsilon -> no_exploration epsilon' ->
  forget_rng l = forget_rng l' ->
  match iteration State get_features E R false epsilon l,
        iteration State get_features E R false epsilon' l' with
  | Some (l1, d), Some (l1', d') => forget_rng l1 = forget_rng l1' /\ d = d'
  | None, None => True
  | _, _ => False
  end.
Proof.
  intros Hr He He' Hagree. unfold iteration.
  destruct (select_action_greedy (solver l) (rng l) (state l) epsilon Hr He)
    as (g1 & ->).
  destruct (select_action_greedy (solver l') (rng l') (state l') epsilon'
              Hr He') as (g1' & ->).
  destruct l, l'. unfold forget_rng in Hagree. simpl in *.
  inversion Hagree; subst.
  destruct (get_max_action State get_features solver1 state1) as [a|];
    simpl; [|exact I].
  destruct (step E env1 a) as [[[ns r1] d] e1]. simpl.
  split; reflexivity.
Qed.

Lemma episode_loop_eval_agree (fuel : nat) (epsilon epsilon' : option Q)
  (max_steps : Z) (l l' : Loop State E R) :
  rng_in_range R -> no_exploration epsilon -> no_exploration epsilon' ->
  forget_rng l = forget_rng l' ->
  observe (episode_loop State get_features E R fuel false epsilon
             max_steps l)
  = observe (episode_loop State get_features E R fuel false epsilon'
               max_steps l').
Proof.
  intros Hr He He'. revert l l'.
  induction fuel as [|fuel IH]; intros l l' Hagree; [reflexivity|].
  pose proof (iteration_eval_agree epsilon epsilon' l l' Hr He He' Hagree)
    as Hit.
  simpl.
  destruct (iteration State get_features E R false epsilon l)
    as [[l1 d]|];
    destruct (iteration State get_features E R false epsilon' l')
      as [[l1' d']|]; try contradiction; [|reflexivity].
  destruct Hit as [Hagree1 <-].
  assert (Hs : step_count l1 = step_count l1')
    by (unfold forget_rng in Hagree1; congruence).
  rewrite <- Hs.
  destruct (d || (step_count l1 =? max_steps)%Z); [|now apply IH].
  unfold forget_rng in Hagree1. simpl.
  inversion Hagree1. repeat f_equal; assumption.
Qed.

End EpisodeFacts.

(** * The claims *)

(** ** Reward shaping *)

(** C3.  The shaped reward is 100 when the raw reward is 1 and the raw
    reward minus 1 otherwise; raw 0 is shaped to -1 and raw -1 to -2. *)
Theorem modify_reward_shaping (r : Q) :
  (r == 1 -> modify_reward r = 100) /\
  (~ r == 1 -> modify_reward r = r - 1) /\
  modify_reward 0 == -1 /\
  modify_reward (-1) == -2.
Proof.
  unfold modify_reward.
  split; [|split; [|split; reflexivity]]; intros H;
    destruct (Qeq_bool (r - 1) 0) eqn:Hb; try reflexivity; exfalso.
  - apply Qeq_bool_neq in Hb. apply Hb. rewrite H. reflexivity.
  - apply Qeq_bool_eq in Hb. apply H. lra.
Qed.

Lemma modify_reward_shaping_witness :
  modify_reward 1 = 100 /\ modify_reward (- (1 # 2)) = - (1 # 2) - 1.
Proof.
  split.
  - apply (modify_reward_shaping 1). reflexivity.
  - apply (modify_reward_shaping (- (1 # 2))). intros H. discriminate H.
Defined.

(** ** The evaluation block *)

Lemma length_filter_split {A} (f : A -> bool) (l : list A) :
  (length (filter f l) + length (filter (fun x => negb (f x)) l)
   = length l)%nat.
Proof.
  induction l as [|x l IH]; simpl; [reflexivity|].
  destruct (f x); simpl; lia.
Qed.

(** C4.  On ten evaluation returns the success rate is the fraction of
    returns different from the failure return -200; with exactly three
    failures it is 7/10. *)
Theorem evaluation_SR_fraction (test_gains : list Q) :
  length test_gains = 10%nat ->
  evaluation_SR test_gains
  == inject_Z (Z.of_nat (length (filter (fun x => negb (Qeq_bool x (-200)))
                                   test_gains)))
     / inject_Z (Z.of_nat (length test_gains)) /\
  (count_failures test_gains = 3%Z -> evaluation_SR test_gains == 7 # 10).
Proof.
  intros Hlen.
  pose proof (length_filter_split (fun x => Qeq_bool x (-200)) test_gains)
    as Hsplit.
  unfold evaluation_SR, count_failures. split.
  - rewrite Hlen in *.
    replace (10 - Z.of_nat (length (filter (fun x => Qeq_bool x (-200))
                                      test_gains)))%Z
      with (Z.of_nat (length (filter (fun x => negb (Qeq_bool x (-200)))
                                test_gains))) by lia.
    reflexivity.
  - intros ->. reflexivity.
Qed.

Lemma evaluation_SR_fraction_witness :
  evaluation_SR [-200; -90; -200; -120; -85; -200; -110; -99; -130; -101]
  == 7 # 10.
Proof.
  apply (evaluation_SR_fraction
           [-200; -90; -200; -120; -85; -200; -110; -99; -130; -101]);
    reflexivity.
Defined.

(** The unused [evaluate_criterion] computes something else: a tenth of
    the second return. *)
Remark evaluate_criterion_SR_second_return :
  evaluate_criterion_SR
    [-200; -90; -200; -120; -85; -200; -110; -99; -130; -101]
  = Some (-90 / 10).
Proof. reflexivity. Qed.

(** ** The solver *)

Section SolverClaims.
Import NumPy NumPyFacts ArgMax.

Variable State : Type.
Variable get_features : State -> list Q.

(** C1.  On a consistent solver and a taken action in range, [update_theta]
    forms the Bellman error [delta = target - Q(state, action)], where the
    target is the reward on a terminal transition and otherwise the reward
    plus [gamma] times the value of the greedy action [a'] in the next
    state; it adds [alpha * delta] times the state-action feature vector to
    the weights and returns [delta]. *)
Theorem update_theta_td_error (s : Solver) (st : State) (a : Z) (r : Q)
  (st' : State) (done : bool) :
  consistent get_features s -> in_range s a ->
  exists a',
    get_max_action State get_features s st' = Some a' /\
    in_range s a' /\
    get_q_val s (get_features st) a
    = Some (action_value s (get_features st) a) /\
    get_q_val s (get_features st') a'
    = Some (action_value s (get_features st') a') /\
    get_state_action_features State get_features s st a
    = Some (block_vector s a (get_features st)) /\
    let target :=
      if done then r
      else r + gamma s * action_value s (get_features st') a' in
    let delta := target - action_value s (get_features st) a in
    update_theta State get_features s st a r st' done
    = Some (set_theta s
              (zip_plus (theta s)
                 (scale (learning_rate s * delta)
                    (block_vector s a (get_features st)))),
            delta).
Proof.
  intros Hc Ha.
  destruct (get_max_action_consistent State get_features s st' Hc)
    as (a' & Hmax & Ha' & _).
  exists a'. split; [exact Hmax|]. split; [exact Ha'|].
  split; [now apply get_q_val_state|].
  split; [now apply get_q_val_state|].
  split; [now apply get_state_action_features_in_range|].
  now apply update_theta_in_range.
Qed.

(** C2.  An update with taken action [a] keeps the length [A * F] of the
    weight vector and leaves every entry of every other block [b] as it
    was. *)
Theorem update_theta_frame (s s' : Solver) (st : State) (a : Z) (r : Q)
  (st' : State) (done : bool) (delta : Q) :
  consistent get_features s -> in_range s a ->
  update_theta State get_features s st a r st' done = Some (s', delta) ->
  Z.of_nat (length (theta s'))
  = (_actions s * number_of_features s)%Z /\
  length (theta s') = length (theta s) /\
  forall b, in_range s b -> b <> a ->
    (forall i : nat,
       (b * number_of_features s <= Z.of_nat i
        < (b + 1) * number_of_features s)%Z ->
       nth i (theta s') 0 == nth i (theta s) 0) /\
    Forall2 Qeq
      (slice (theta s') (b * number_of_features s)
         ((1 + b) * number_of_features s))
      (slice (theta s) (b * number_of_features s)
         ((1 + b) * number_of_features s)).
Proof.
  intros Hc Ha Hup.
  rewrite (update_theta_inv State get_features _ _ _ _ _ _ _ _ Hc Ha Hup).
  simpl.
  set (w := zip_plus (theta s)
              (scale (learning_rate s * delta)
                 (block_vector s a (get_features st)))).
  assert (Hlen : length w = length (theta s)).
  { unfold w. rewrite length_zip_plus; auto.
    now rewrite length_scale, length_block_vector. }
  assert (Hentry : forall b, in_range s b -> b <> a ->
            forall i : nat,
              (b * number_of_features s <= Z.of_nat i
               < (b + 1) * number_of_features s)%Z ->
              nth i w 0 == nth i (theta s) 0).
  { intros b Hb Hne i Hi. unfold w.
    rewrite nth_zip_plus
      by (now rewrite length_scale, length_block_vector).
    rewrite nth_scale.
    unfold block_vector. rewrite nth_block_vector; [ring|].
    destruct Hc as (HA & HF & Hl & Hf). specialize (Hf st).
    unfold in_range in *.
    assert (0 <= a * number_of_features s)%Z by nia.
    destruct (Z.lt_trichotomy b a) as [Hlt | [Heq | Hgt]];
      [left | easy | right].
    - assert ((b + 1) * number_of_features s <= a * number_of_features s)%Z
        by nia. lia.
    - assert ((a + 1) * number_of_features s <= b * number_of_features s)%Z
        by nia. lia. }
  destruct Hc as (HA & HF & Hl & Hf).
  split; [rewrite Hlen; exact Hl|]. split; [exact Hlen|].
  intros b Hb Hne. split; [now apply Hentry|].
  rewrite !(slice_block _ (_actions s))
    by (rewrite ?Hlen; assumption).
  assert (Hblen : forall l : list Q,
            Z.of_nat (length l) = (_actions s * number_of_features s)%Z ->
            length (firstn (Z.to_nat (number_of_features s))
                      (skipn (Z.to_nat (b * number_of_features s)) l))
            = Z.to_nat (number_of_features s))
    by (intros l Hll; now apply (length_block l (_actions s))).
  apply Forall2_Qeq_nth.
  - rewrite !Hblen by (rewrite ?Hlen; assumption). reflexivity.
  - intros i Hi. rewrite Hblen in Hi by (rewrite ?Hlen; assumption).
    rewrite !nth_firstn.
    destruct (Nat.ltb_spec i (Z.to_nat (number_of_features s))); [|lia].
    rewrite !nth_skipn. apply (Hentry b Hb Hne).
    unfold in_range in Hb.
    assert (0 <= b * number_of_features s)%Z by nia. lia.
Qed.

(** C7.  On a consistent solver the greedy action exists and lies in
    [0, A); no action has a larger value and every lower-numbered action has
    a strictly smaller one; an action whose value strictly exceeds all
    others is the one returned. *)
Theorem get_max_action_first_max (s : Solver) (st : State) :
  consistent get_features s ->
  exists a,
    get_max_action State get_features s st = Some a /\
    in_range s a /\
    (forall b, in_range s b ->
       get_q_val s (get_features st) b
       = Some (action_value s (get_features st) b)) /\
    (forall b, in_range s b ->
       action_value s (get_features st) b
       <= action_value s (get_features st) a) /\
    (forall b, in_range s b -> (b < a)%Z ->
       action_value s (get_features st) b
       < action_value s (get_features st) a) /\
    (forall d, in_range s d ->
       (forall b, in_range s b -> b <> d ->
          action_value s (get_features st) b
          < action_value s (get_features st) d) ->
       a = d).
Proof.
  intros Hc.
  destruct (get_max_action_consistent State get_features s st Hc)
    as (a & Hmax & Ha & Hfm).
  set (qs := map (action_value s (get_features st)) (range (_actions s)))
    in *.
  assert (Hq : forall b, in_range s b ->
            nth (Z.to_nat b) qs 0 = action_value s (get_features st) b)
    by (intros; now apply nth_all_q_vals).
  assert (Hlen : length qs = Z.to_nat (_actions s))
    by (unfold qs; now rewrite length_map, length_range).
  exists a. split; [exact Hmax|]. split; [exact Ha|].
  split; [intros; now apply get_q_val_state|].
  destruct Hfm as (Hr & Hle & Hlt). unfold in_range in *.
  split; [|split].
  - intros b Hb. rewrite <- (Hq b Hb), <- (Hq a Ha). apply Hle. lia.
  - intros b Hb Hba. rewrite <- (Hq b Hb), <- (Hq a Ha). apply Hlt. lia.
  - intros d Hd Hdom. apply (first_max_unique qs).
    + split; [exact Hr | split; [exact Hle | exact Hlt]].
    + split; [lia | split]; intros j Hj; rewrite (Hq d Hd).
      * destruct (Z.eq_dec (Z.of_nat j) d) as [<- | Hne].
        -- rewrite <- (Hq (Z.of_nat j)) by lia. rewrite Nat2Z.id.
           apply Qle_refl.
        -- apply Qlt_le_weak.
           rewrite <- (Nat2Z.id j), Hq by lia. apply Hdom; [lia | exact Hne].
      * rewrite <- (Nat2Z.id j), Hq by lia. apply Hdom; lia.
Qed.

(** C8.  After one update with a positive learning rate the value of the
    taken action has not moved away from the target: it has not decreased
    when [delta] is positive and has not increased when [delta] is
    negative.  On a terminal transition [delta] is the reward minus the old
    value, so the target is the reward itself.  That the value changes does
    not follow from [alpha * delta] being different from 0: the step is
    scaled by the features, and in binary64 a small step is rounded
    away. *)
Theorem update_theta_not_away_from_target (s s' : Solver) (st : State)
  (a : Z) (r : Q) (st' : State) (done : bool) (delta : Q) :
  consistent get_features s -> in_range s a ->
  update_theta State get_features s st a r st' done = Some (s', delta) ->
  0 < learning_rate s ->
  let old := action_value s (get_features st) a in
  let new := action_value s' (get_features st) a in
  get_q_val s (get_features st) a = Some old /\
  get_q_val s' (get_features st) a = Some new /\
  (0 < delta -> old <= new) /\
  (delta < 0 -> new <= old) /\
  (done = true -> delta = r - old).
Proof.
  intros Hc Ha Hup Halpha old new.
  destruct (update_theta_consistent State get_features _ _ _ _ _ _ _ _
              Hc Ha Hup) as [Hc' HA'].
  assert (Ha' : in_range s' a) by (unfold in_range in *; now rewrite HA').
  pose proof (dot_sum_self_nonneg (get_features st)) as Hpos.
  assert (Hmove : new - old
            == learning_rate s * delta
               * dot_sum (get_features st) (get_features st)).
  { unfold new, old, action_value, block.
    rewrite (update_theta_inv State get_features _ _ _ _ _ _ _ _ Hc Ha Hup).
    simpl.
    pose proof (length_block_vector State get_features s st a Hc Ha) as Hbv.
    destruct Hc as (HA & HF & Hl & Hf). specialize (Hf st).
    unfold in_range in Ha.
    assert (0 <= a * number_of_features s)%Z by nia.
    rewrite skipn_zip_plus by (now rewrite length_scale).
    rewrite firstn_zip_plus.
    unfold scale. rewrite skipn_map, firstn_map.
    rewrite block_of_block_vector by assumption.
    fold (scale (learning_rate s * delta) (get_features st)).
    rewrite dot_sum_move.
    - ring.
    - rewrite (length_block (theta s) (_actions s)) by assumption. lia. }
  split; [now apply get_q_val_state|].
  split; [now apply get_q_val_state|].
  set (n2 := dot_sum (get_features st) (get_features st)) in *.
  split; [|split].
  - intros Hdelta.
    assert (0 <= learning_rate s * delta * n2)
      by (apply Qmult_le_0_compat; [apply Qmult_le_0_compat|]; lra).
    lra.
  - intros Hdelta.
    assert (0 <= learning_rate s * (- delta) * n2)
      by (apply Qmult_le_0_compat; [apply Qmult_le_0_compat|]; lra).
    lra.
  - intros ->.
    destruct (get_max_action_consistent State get_features s st' Hc)
      as (a' & Hmax & Hr' & _).
    rewrite (update_theta_in_range State get_features s st a r st' true a')
      in Hup by assumption.
    now inversion Hup.
Qed.

End SolverClaims.

(** *** The claims on the small instance *)

Lemma demo_consistent : consistent Demo.feats Demo.s0.
Proof.
  unfold consistent. simpl.
  split; [lia|]. split; [lia|]. split; [reflexivity|].
  intros st. reflexivity.
Defined.

Lemma demo_update_terminal :
  update_theta Z Demo.feats Demo.s0 2%Z 1%Z (-1) 3%Z true = Some (Demo.s1, -3).
Proof. vm_compute. reflexivity. Defined.

Lemma update_theta_td_error_witness :
  in_range Demo.s0 1%Z /\
  exists a',
    get_max_action Z Demo.feats Demo.s0 3%Z = Some a' /\
    update_theta Z Demo.feats Demo.s0 2%Z 1%Z (-1) 3%Z false
    = Some (set_theta Demo.s0
              (NumPy.zip_plus (theta Demo.s0)
                 (NumPy.scale
                    (learning_rate Demo.s0
                     * (-1 + gamma Demo.s0
                             * action_value Demo.s0 (Demo.feats 3%Z) a'
                        - action_value Demo.s0 (Demo.feats 2%Z) 1%Z))
                    (block_vector Demo.s0 1%Z (Demo.feats 2%Z)))),
            -1 + gamma Demo.s0 * action_value Demo.s0 (Demo.feats 3%Z) a'
            - action_value Demo.s0 (Demo.feats 2%Z) 1%Z).
Proof.
  assert (Hr : in_range Demo.s0 1%Z) by (unfold in_range; simpl; lia).
  split; [exact Hr|].
  destruct (update_theta_td_error Z Demo.feats Demo.s0 2%Z 1%Z (-1) 3%Z
              false demo_consistent Hr)
    as (a' & Hmax & _ & _ & _ & _ & Hup).
  exists a'. split; [exact Hmax | exact Hup].
Defined.

Lemma update_theta_frame_witness :
  length (theta Demo.s1) = length (theta Demo.s0) /\
  nth 4 (theta Demo.s1) 0 == nth 4 (theta Demo.s0) 0.
Proof.
  destruct (update_theta_frame Z Demo.feats Demo.s0 Demo.s1 2%Z 1%Z (-1)
              3%Z true (-3) demo_consistent
              ltac:(unfold in_range; simpl; lia) demo_update_terminal)
    as (_ & Hlen & Hframe).
  split; [exact Hlen|].
  apply (Hframe 2%Z); [unfold in_range | | ]; simpl; lia.
Defined.

Lemma get_max_action_first_max_witness :
  exists a,
    get_max_action Z Demo.feats Demo.s0 2%Z = Some a /\ in_range Demo.s0 a.
Proof.
  destruct (get_max_action_first_max Z Demo.feats Demo.s0 2%Z
              demo_consistent) as (a & Hmax & Ha & _).
  exists a. split; [exact Hmax | exact Ha].
Defined.

Lemma update_theta_not_away_from_target_witness :
  action_value Demo.s1 (Demo.feats 2%Z) 1%Z
  <= action_value Demo.s0 (Demo.feats 2%Z) 1%Z.
Proof.
  destruct (update_theta_not_away_from_target Z Demo.feats Demo.s0 Demo.s1
              2%Z 1%Z (-1) 3%Z true (-3) demo_consistent
              ltac:(unfold in_range; simpl; lia) demo_update_terminal
              ltac:(reflexivity))
    as (_ & _ & _ & Hdown & _).
  apply Hdown. reflexivity.
Defined.

(** The value can stay where it is although [alpha * delta] is not 0.
    With an all-zero feature vector the gradient is zero: the Bellman error
    is 100, the learning rate 1, and the value of the taken action is 0
    before and after.  In binary64 the step can be rounded away in the sum
    of line 83: with the weight just below 100, feature 1, reward 100 and
    learning rate 0.05, the Bellman error and its product with the
    learning rate are not zero, and the new weight and value are the old
    ones. *)
Lemma update_theta_can_leave_value_unchanged :
  (exists s' delta,
     update_theta Z DemoMore.bare DemoMore.s_whole 0%Z 1%Z 100 3%Z true
     = Some (s', delta) /\
     ~ learning_rate DemoMore.s_whole * delta == 0 /\
     action_value s' (DemoMore.bare 0%Z) 1%Z
     == action_value DemoMore.s_whole (DemoMore.bare 0%Z) 1%Z) /\
  (let '(theta', delta) :=
     Binary64.update_theta DemoBinary64.theta DemoBinary64.gamma
       DemoBinary64.learning_rate DemoBinary64.features
       DemoBinary64.reward DemoBinary64.features true in
   PrimFloat.eqb delta DemoBinary64.zero = false /\
   PrimFloat.eqb (PrimFloat.mul DemoBinary64.learning_rate delta)
     DemoBinary64.zero = false /\
   theta' = DemoBinary64.theta /\
   Binary64.get_q_val theta' DemoBinary64.features
   = Binary64.get_q_val DemoBinary64.theta DemoBinary64.features).
Proof.
  split.
  - eexists _, _. split; [vm_compute; reflexivity|].
    split; [intros H; discriminate H | reflexivity].
  - vm_compute. repeat split.
Qed.

(** Outside [0, A) the slices follow Python's rules: an action of [A] or
    more selects an empty block and the inner product raises; a negative
    action counts blocks from the end, so that -2 updates block 1 here.
    The solver's claims are stated for actions in range. *)
Example action_out_of_range_raises :
  update_theta Z Demo.feats Demo.s0 2%Z 3%Z (-1) 3%Z true = None.
Proof. reflexivity. Qed.

Example negative_action_counts_from_the_end :
  update_theta Z Demo.feats Demo.s0 2%Z (-2)%Z (-1) 3%Z true
  = Some (Demo.s1, -3).
Proof. vm_compute. reflexivity. Qed.

(** ** The episode runner *)

Section EpisodeClaims.
Import NumPy NumPyFacts.

Variable State : Type.
Variable get_features : State -> list Q.
Variable E : Environment State.
Variable R : RandomSource.

(** C5.  A training iteration updates the weights with the Bellman error
    of its step, and that error uses the reward alone exactly when the
    simulator's terminal flag is set, and bootstraps from the greedy value
    of the next state otherwise, whatever the step counter: the solver the
    iteration leaves is the one [update_theta] returns for the flag, its
    weights are the old ones plus [alpha * delta] times the features in the
    block of the action, and [delta] is the error recorded.  The loop
    leaves when the flag is set or the counter reaches [max_steps].  So an
    exit on the budget alone returns the solver updated with the
    bootstrapped target. *)
Theorem budget_exit_still_bootstraps (epsilon : option Q)
  (l : Loop State E R) :
  consistent get_features (solver l) -> rng_in_range R ->
  action_space_n E = _actions (solver l) ->
  exists l1 done action reward1 a',
    iteration State get_features E R true epsilon l = Some (l1, done) /\
    step E (env l) action = (state l1, reward1, done, env l1) /\
    in_range (solver l) action /\
    get_max_action State get_features (solver l) (state l1) = Some a' /\
    (let target :=
       if done then modify_reward reward1
       else modify_reward reward1
            + gamma (solver l)
              * action_value (solver l) (get_features (state l1)) a' in
     let delta :=
       target - action_value (solver l) (get_features (state l)) action in
     deltas l1 = deltas l ++ [delta] /\
     update_theta State get_features (solver l) (state l) action
       (modify_reward reward1) (state l1) done
     = Some (solver l1, delta) /\
     solver l1
     = set_theta (solver l)
         (zip_plus (theta (solver l))
            (scale (learning_rate (solver l) * delta)
               (block_vector (solver l) action
                  (get_features (state l)))))) /\
    (forall fuel max_steps,
       episode_loop State get_features E R (S fuel) true epsilon max_steps l
       = if done || (step_count l + 1 =? max_steps)%Z then
           Finished (mkEpisode State E R (episode_gain l1)
                       (mean (deltas l1)) l1)
         else episode_loop State get_features E R fuel true epsilon
                max_steps l1) /\
    (done = false ->
     forall fuel,
       episode_loop State get_features E R (S fuel) true epsilon
         (step_count l + 1) l
       = Finished (mkEpisode State E R (episode_gain l1)
                     (mean (deltas l1)) l1)).
Proof.
  intros Hc Hr HA.
  destruct (iteration_total State get_features E R true epsilon l Hc Hr HA)
    as (l1 & done & Hit & _).
  destruct (select_action_total State get_features E R (solver l) (rng l)
              (state l) epsilon Hc Hr HA) as (a0 & g0 & Hsel0 & Ha0).
  pose proof Hit as Hinv. apply iteration_inv in Hinv.
  destruct Hinv as (a & g1 & ns & r1 & e1 & s1 & d1 & Hsel & Hstep
                    & (delta & Hup & ->) & ->).
  rewrite Hsel0 in Hsel. inversion Hsel; subst a0 g0.
  destruct (get_max_action_consistent State get_features (solver l) ns Hc)
    as (a' & Hmax & Ha' & _).
  pose proof (update_theta_in_range State get_features (solver l) (state l)
                a (modify_reward r1) ns done a' Hc Ha0 Hmax Ha') as Hup'.
  cbv zeta in Hup'. pose proof Hup as Hup2.
  rewrite Hup' in Hup2. inversion Hup2 as [[Hs1 Hdelta]].
  exists (mkLoop State E R e1 s1 g1 ns (step_count l + 1)%Z
            (episode_gain l + modify_reward r1) (deltas l ++ [delta])
            (actions l ++ [a]) (raw_rewards l ++ [r1]) (dones l ++ [done])),
    done, a, r1, a'.
  split; [exact Hit|]. split; [exact Hstep|]. split; [exact Ha0|].
  split; [exact Hmax|]. cbv zeta. cbn [deltas solver state].
  split; [|split].
  - split; [now rewrite Hdelta|].
    split; [rewrite Hup'; now rewrite Hs1 | now rewrite Hs1].
  - intros fuel max_steps. now apply episode_loop_unfold.
  - intros -> fuel.
    rewrite (episode_loop_unfold _ _ _ _ _ _ _ _ _ _ _ Hit).
    rewrite Z.eqb_refl. reflexivity.
Qed.

(** C6.  On a consistent solver with a step budget of at least 1,
    [run_episode] returns.  The run is a chain of iterations from the start
    state: each action is the one selected on the current solver, the raw
    rewards are what [step] returned for these actions, and in training the
    errors are what [update_theta] returned for the shaped rewards, each
    call on the solver the previous one left.  The first component
    returned is the sum of the shaped rewards; in training the second is
    the mean of the errors, one per step; in evaluation it is undefined,
    nothing is recorded and the solver is the one passed in. *)
Theorem run_episode_returns (fuel : nat) (e : Env E) (s : Solver)
  (g : Rng R) (is_train : bool) (epsilon : option Q) (max_steps : Z)
  (render : bool) :
  consistent get_features s -> rng_in_range R ->
  action_space_n E = _actions s ->
  (1 <= max_steps)%Z -> (Z.to_nat max_steps <= fuel)%nat ->
  exists ep,
    run_episode State get_features E R fuel e s g is_train epsilon
      max_steps render = Finished ep /\
    transitions get_features is_train epsilon
      (let '(st, e1, g1) := start_state State E R e g is_train in
       (e1, s, g1, st))
      (actions (at_exit ep)) (raw_rewards (at_exit ep))
      (dones (at_exit ep)) (deltas (at_exit ep))
      (env (at_exit ep), solver (at_exit ep), rng (at_exit ep),
       state (at_exit ep)) /\
    gain ep == sum (map modify_reward (raw_rewards (at_exit ep))) /\
    (0 < length (raw_rewards (at_exit ep)))%nat /\
    if is_train then
      length (deltas (at_exit ep)) = length (raw_rewards (at_exit ep)) /\
      mean_delta ep
      = Some (sum (deltas (at_exit ep))
              / inject_Z (Z.of_nat (length (deltas (at_exit ep)))))
    else
      mean_delta ep = None /\ deltas (at_exit ep) = [] /\
      solver (at_exit ep) = s.
Proof.
  intros Hc Hr HA Hmax Hfuel. unfold run_episode.
  destruct (start_state State E R e g is_train) as [[st e1] g1].
  set (l := mkLoop State E R e1 s g1 st 0%Z 0 [] [] [] []).
  destruct (episode_loop_finishes State get_features E R fuel is_train
              epsilon max_steps l Hc Hr HA) as (ep & Hep);
    [simpl; lia | simpl; lia |].
  assert (Ht : tracked is_train s l).
  { unfold tracked. simpl. split; [reflexivity|]. split; [reflexivity|].
    destruct is_train; auto. }
  destruct (episode_loop_tracked State get_features E R fuel is_train s
              epsilon max_steps l ep Ht Hep)
    as ((Hg & Hlen & Hd) & Hgain & Hmean & Hsteps).
  destruct (episode_loop_transitions State get_features E R fuel is_train
              epsilon max_steps l ep Hep)
    as (acts & rs & ds & errs & Ha1 & Hr1 & Hd1 & He1 & Htr).
  simpl in Ha1, Hr1, Hd1, He1, Htr.
  exists ep. split; [exact Hep|].
  split; [rewrite Ha1, Hr1, Hd1, He1; exact Htr|]. rewrite Hgain.
  split; [exact Hg|]. split; [simpl in Hsteps; lia|].
  destruct is_train.
  - split; [congruence|]. rewrite Hmean.
    destruct (deltas (at_exit ep)) as [|d ds']; [simpl in *; lia | reflexivity].
  - destruct Hd as [Hnil Hs]. rewrite Hmean, Hnil. auto.
Qed.

(** C9.  Without exploration, two evaluation episodes that start from the
    same start state and simulator state show the same actions and the same
    returned pair, whatever the states of the generator; and the solver is
    left as it was. *)
Theorem evaluation_run_deterministic (fuel : nat) (e : Env E) (s : Solver)
  (g g' : Rng R) (epsilon epsilon' : option Q) (max_steps : Z)
  (render render' : bool) :
  rng_in_range R -> no_exploration epsilon -> no_exploration epsilon' ->
  fst (start_state State E R e g false)
  = fst (start_state State E R e g' false) ->
  observe (run_episode State get_features E R fuel e s g false epsilon
             max_steps render)
  = observe (run_episode State get_features E R fuel e s g' false epsilon'
               max_steps render') /\
  (forall ep,
     run_episode State get_features E R fuel e s g false epsilon max_steps
       render = Finished ep ->
     solver (at_exit ep) = s) /\
  (consistent get_features s -> action_space_n E = _actions s ->
   (1 <= max_steps)%Z -> (Z.to_nat max_steps <= fuel)%nat ->
   exists ep ep',
     run_episode State get_features E R fuel e s g false epsilon max_steps
       render = Finished ep /\
     run_episode State get_features E R fuel e s g' false epsilon'
       max_steps render' = Finished ep' /\
     actions (at_exit ep) = actions (at_exit ep') /\
     gain ep = gain ep').
Proof.
  intros Hr He He' Hstart.
  assert (Hobs :
    observe (run_episode State get_features E R fuel e s g false epsilon
               max_steps render)
    = observe (run_episode State get_features E R fuel e s g' false
                 epsilon' max_steps render')).
  { unfold run_episode.
    destruct (start_state State E R e g false) as [[st e1] g1].
    destruct (start_state State E R e g' false) as [[st' e1'] g1'].
    simpl in Hstart. inversion Hstart; subst st' e1'.
    apply episode_loop_eval_agree; auto. }
  split; [exact Hobs|]. split.
  - unfold run_episode.
    destruct (start_state State E R e g false) as [[st e1] g1].
    intros ep Hep.
    assert (Ht : tracked false s
                   (mkLoop State E R e1 s g1 st 0%Z 0 [] [] [] []))
      by (unfold tracked; simpl; split; [reflexivity | auto]).
    destruct (episode_loop_tracked State get_features E R fuel false s
                epsilon max_steps _ ep Ht Hep) as ((_ & _ & _ & Hs) & _).
    exact Hs.
  - intros Hc HA Hmax Hfuel.
    destruct (run_episode_finishes State get_features E R fuel e s g false
                epsilon max_steps render Hc Hr HA Hmax Hfuel) as (ep & Hep).
    destruct (run_episode_finishes State get_features E R fuel e s g' false
                epsilon' max_steps render' Hc Hr HA Hmax Hfuel)
      as (ep' & Hep').
    rewrite Hep, Hep' in Hobs. simpl in Hobs. inversion Hobs.
    exists ep, ep'. auto.
Qed.

(** C10.  With a step budget of at least 1 the loop has left after at most
    [max_steps] iterations, each of which steps the simulator once and
    increments the counter once, and it leaves on the terminal flag or on
    the counter being equal to the budget.  With a budget of 0 or less the
    equality is never met: on a simulator that never signals terminal the
    run does not return. *)
Theorem run_episode_step_budget (fuel : nat) (e : Env E) (s : Solver)
  (g : Rng R) (is_train : bool) (epsilon : option Q) (max_steps : Z)
  (render : bool) :
  ((1 <= max_steps)%Z -> (Z.to_nat max_steps <= fuel)%nat ->
   run_episode State get_features E R fuel e s g is_train epsilon
     max_steps render <> OutOfFuel /\
   forall ep,
     run_episode State get_features E R fuel e s g is_train epsilon
       max_steps render = Finished ep ->
     (1 <= step_count (at_exit ep) <= max_steps)%Z /\
     length (actions (at_exit ep)) = Z.to_nat (step_count (at_exit ep)) /\
     (last (dones (at_exit ep)) false = true \/
      step_count (at_exit ep) = max_steps)) /\
  ((max_steps <= 0)%Z ->
   (forall e' a, snd (fst (step E e' a)) = false) ->
   forall ep,
     run_episode State get_features E R fuel e s g is_train epsilon
       max_steps render <> Finished ep).
Proof.
  unfold run_episode.
  destruct (start_state State E R e g is_train) as [[st e1] g1].
  split.
  - intros Hmax Hfuel.
    destruct (episode_loop_within_budget State get_features E R fuel
                is_train epsilon max_steps
                (mkLoop State E R e1 s g1 st 0%Z 0 [] [] [] []))
      as [Hnot Hfin]; [simpl; lia | simpl; lia |].
    split; [exact Hnot|]. intros ep Hep.
    destruct (Hfin ep Hep) as (H1 & H2 & H3). simpl in *.
    split; [lia|]. split; [rewrite H2; f_equal; lia | exact H3].
  - intros Hmax Hnever.
    apply episode_loop_past_budget; [exact Hnever | simpl; lia].
Qed.

End EpisodeClaims.

(** *** The runner's claims on the small instance *)

Lemma demo_rng_in_range : rng_in_range Demo.lowest.
Proof.
  split.
  - intros g low high _. simpl. apply Qle_refl.
  - intros g n Hn. simpl.
    destruct (Z.ltb_spec 0 n); [|lia].
    exists 0%Z, (S g). split; [reflexivity | lia].
Defined.

Lemma budget_exit_still_bootstraps_witness :
  exists l1 done,
    iteration Z Demo.feats Demo.walk Demo.lowest true None Demo.l2
    = Some (l1, done) /\
    episode_loop Z Demo.feats Demo.walk Demo.lowest 1 true None 2 Demo.l2
    = if done || (step_count Demo.l2 + 1 =? 2)%Z then
        Finished (mkEpisode Z Demo.walk Demo.lowest (episode_gain l1)
                    (NumPy.mean (deltas l1)) l1)
      else OutOfFuel.
Proof.
  destruct (budget_exit_still_bootstraps Z Demo.feats Demo.walk Demo.lowest
              None Demo.l2 demo_consistent demo_rng_in_range eq_refl)
    as (l1 & done & a & r1 & a' & Hit & _ & _ & _ & _ & Hloop & _).
  exists l1, done. split; [exact Hit|]. apply (Hloop O 2%Z).
Defined.

(** The budget exit on the instance: the counter reaches 2 with the
    terminal flag never set, and the Bellman error recorded at that step is
    [-1 + 1/2 * 2 - 2 = -2], the bootstrapped one (the reward alone would
    give [-1 - 2 = -3]).  The solver returned has the block of action 1
    moved by [1/10 * -2] times the features [2; 1], from [1; 0] to
    [3/5; -1/5]. *)
Example budget_exit_on_the_walk :
  match episode_loop Z Demo.feats Demo.walk Demo.lowest 1 true None 2
          Demo.l2 with
  | Finished ep =>
      dones (at_exit ep) = [false; false] /\
      step_count (at_exit ep) = 2%Z /\
      Forall2 Qeq (deltas (at_exit ep)) [-2] /\
      Forall2 Qeq (theta (solver (at_exit ep)))
        [0; 0; 3 # 5; - (1 # 5); 0; 1 # 2]
  | _ => False
  end.
Proof.
  vm_compute. split; [reflexivity|]. split; [reflexivity|].
  split; repeat (constructor; [reflexivity|]); constructor.
Qed.

Lemma run_episode_returns_witness :
  (exists ep,
     run_episode Z Demo.feats Demo.walk Demo.lowest 2 0%Z Demo.s0 O true
       (Some 0) 2 false = Finished ep /\
     exists m, mean_delta ep = Some m) /\
  (exists ep,
     run_episode Z Demo.feats Demo.walk Demo.lowest 2 0%Z Demo.s0 O false
       None 2 false = Finished ep /\
     mean_delta ep = None).
Proof.
  split.
  - destruct (run_episode_returns Z Demo.feats Demo.walk Demo.lowest 2 0%Z
                Demo.s0 O true (Some 0) 2 false demo_consistent
                demo_rng_in_range eq_refl ltac:(lia) ltac:(simpl; lia))
      as (ep & Hep & _ & _ & _ & _ & Hmean).
    exists ep. split; [exact Hep | eexists; exact Hmean].
  - destruct (run_episode_returns Z Demo.feats Demo.walk Demo.lowest 2 0%Z
                Demo.s0 O false None 2 false demo_consistent
                demo_rng_in_range eq_refl ltac:(lia) ltac:(simpl; lia))
      as (ep & Hep & _ & _ & _ & Hmean & _).
    exists ep. split; [exact Hep | exact Hmean].
Defined.

Lemma evaluation_run_deterministic_witness :
  exists ep ep',
    run_episode Z Demo.feats Demo.walk Demo.lowest 5 0%Z Demo.s0 O false
      None 5 false = Finished ep /\
    run_episode Z Demo.feats Demo.walk Demo.lowest 5 0%Z Demo.s0 7%nat
      false (Some 0) 5 false = Finished ep' /\
    actions (at_exit ep) = actions (at_exit ep') /\
    gain ep = gain ep'.
Proof.
  apply (evaluation_run_deterministic Z Demo.feats Demo.walk Demo.lowest
           5 0%Z Demo.s0 O 7%nat None (Some 0) 5 false false
           demo_rng_in_range I (Qeq_refl 0) eq_refl);
    [exact demo_consistent | reflexivity | lia | simpl; lia].
Defined.

(** The two runs of the witness, evaluated. *)
Example evaluation_runs_on_the_walk :
  observe (run_episode Z Demo.feats Demo.walk Demo.lowest 5 0%Z Demo.s0 O
             false None 5 false)
  = Finished ([2%Z; 1%Z; 1%Z; 1%Z; 1%Z], -5, None, Demo.s0) /\
  observe (run_episode Z Demo.feats Demo.walk Demo.lowest 5 0%Z Demo.s0
             7%nat false (Some 0) 5 false)
  = Finished ([2%Z; 1%Z; 1%Z; 1%Z; 1%Z], -5, None, Demo.s0).
Proof. split; vm_compute; reflexivity. Qed.

Lemma run_episode_step_budget_witness :
  run_episode Z Demo.feats Demo.walk Demo.lowest 5 0%Z Demo.s0 O true
    (Some (1 # 10)) 5 false <> OutOfFuel /\
  forall ep,
    run_episode Z Demo.feats Demo.treadmill Demo.lowest 50 0%Z Demo.s0 O
      false None 0 false <> Finished ep.
Proof.
  split.
  - apply (run_episode_step_budget Z Demo.feats Demo.walk Demo.lowest 5 0%Z
             Demo.s0 O true (Some (1 # 10)) 5 false);
      [lia | simpl; lia].
  - apply (run_episode_step_budget Z Demo.feats Demo.treadmill Demo.lowest
             50 0%Z Demo.s0 O false None 0 false);
      [lia | intros; reflexivity].
Defined.

(** * Further properties of the program *)

(** ** Smoothing *)

Module SignalFacts.
Import NumPy NumPyFacts NumPySignal.

Lemma rev_repeat_same {A} (x : A) (n : nat) : rev (repeat x n) = repeat x n.
Proof.
  induction n as [|n IH]; simpl; [reflexivity|].
  rewrite IH. clear IH.
  induction n as [|n IH]; simpl; [reflexivity|]. now rewrite IH.
Qed.

Lemma dot_sum_ones_r (l : list Q) (w : nat) :
  dot_sum l (repeat 1 w) == sum (firstn w l).
Proof.
  revert w; induction l as [|x l IH]; intros [|w]; simpl;
    try reflexivity.
  rewrite IH. ring.
Qed.

Lemma dot_sum_ones_l (v : list Q) (n : nat) :
  (length v <= n)%nat -> dot_sum (repeat 1 n) v == sum v.
Proof.
  revert n; induction v as [|x v IH]; intros [|n] H; simpl in *;
    try reflexivity; try lia.
  rewrite IH by lia. ring.
Qed.

Lemma sum_app (l l' : list Q) : sum (l ++ l') == sum l + sum l'.
Proof.
  induction l as [|x l IH]; simpl; [ring|]. rewrite IH. ring.
Qed.

Lemma sum_rev (l : list Q) : sum (rev l) == sum l.
Proof.
  induction l as [|x l IH]; simpl; [reflexivity|].
  rewrite sum_app, IH. simpl. ring.
Qed.

Lemma nth_map_seq {A} (f : nat -> A) (n k : nat) (d : A) :
  (k < n)%nat -> nth k (map f (seq 0 n)) d = f k.
Proof.
  intros H.
  rewrite (nth_indep _ d (f O)) by (now rewrite length_map, length_seq).
  rewrite map_nth, seq_nth by assumption. reflexivity.
Qed.

Lemma length_correlate_valid (a v : list Q) :
  length (correlate_valid a v) = (length a - length v + 1)%nat.
Proof. unfold correlate_valid. now rewrite length_map, length_seq. Qed.

Lemma nth_scaled_correlate (a v : list Q) (c : Q) (k : nat) :
  (k < length a - length v + 1)%nat ->
  nth k (map (fun y => y / c) (correlate_valid a v)) 0
  = dot_sum (skipn k a) v / c.
Proof.
  intros Hk.
  rewrite (nth_indep _ 0 (0 / c))
    by (now rewrite length_map, length_correlate_valid).
  rewrite (map_nth (fun y => y / c)).
  unfold correlate_valid. now rewrite nth_map_seq.
Qed.

Lemma convolve_valid_long (a v : list Q) :
  (length v <= length a)%nat -> v <> [] ->
  convolve_valid a v = Some (correlate_valid a (rev v)).
Proof.
  intros Hlen Hv. unfold convolve_valid.
  destruct (Nat.ltb_spec (length a) (length v)); [lia|].
  destruct a as [|x a]; destruct v as [|y v]; simpl in *;
    try congruence; lia.
Qed.

Lemma convolve_valid_short (a v : list Q) :
  (length a < length v)%nat -> a <> [] ->
  convolve_valid a v = Some (correlate_valid v (rev a)).
Proof.
  intros Hlen Ha. unfold convolve_valid.
  destruct (Nat.ltb_spec (length a) (length v)); [|lia].
  destruct a as [|x a]; destruct v as [|y v]; simpl in *;
    try congruence; lia.
Qed.

(** The value of [moving_average] on a window that fits. *)
Lemma moving_average_long (x : list Q) (w : Z) :
  (0 < w)%Z -> (Z.to_nat w <= length x)%nat ->
  moving_average x w
  = Some (map (fun y => y / inject_Z w)
            (correlate_valid x (repeat 1 (Z.to_nat w)))).
Proof.
  intros Hw Hlen. unfold moving_average, ones.
  destruct (Z.ltb_spec w 0); [lia|]. simpl.
  rewrite convolve_valid_long.
  - simpl. now rewrite rev_repeat_same.
  - now rewrite repeat_length.
  - destruct (Z.to_nat w) eqn:E; [lia | discriminate].
Qed.

(** The value of [moving_average] on a window longer than the input. *)
Lemma moving_average_short (x : list Q) (w : Z) :
  x <> [] -> (length x < Z.to_nat w)%nat ->
  moving_average x w
  = Some (map (fun y => y / inject_Z w)
            (correlate_valid (repeat 1 (Z.to_nat w)) (rev x))).
Proof.
  intros Hx Hlen. unfold moving_average, ones.
  destruct (Z.ltb_spec w 0); [lia|]. simpl.
  rewrite convolve_valid_short by (rewrite ?repeat_length; assumption).
  reflexivity.
Qed.

Lemma nth_moving_average_long (x : list Q) (w : Z) (k : nat) :
  (k < length x - Z.to_nat w + 1)%nat ->
  nth k (map (fun y => y / inject_Z w)
           (correlate_valid x (repeat 1 (Z.to_nat w)))) 0
  == sum (firstn (Z.to_nat w) (skipn k x)) / inject_Z w.
Proof.
  intros Hk.
  rewrite nth_scaled_correlate by (now rewrite repeat_length).
  now rewrite dot_sum_ones_r.
Qed.

End SignalFacts.

Section MovingAverage.
Import NumPy NumPyFacts NumPySignal SignalFacts.

(** X1.  For a window [w] between 1 and the length of [x], the moving
    average has [len(x) - w + 1] entries and entry [k] is the mean of the
    [w] values of [x] from position [k] on. *)
Theorem moving_average_windows (x : list Q) (w : Z) :
  (0 < w)%Z -> (Z.to_nat w <= length x)%nat ->
  exists l,
    moving_average x w = Some l /\
    length l = (length x - Z.to_nat w + 1)%nat /\
    forall k, (k < length l)%nat ->
      nth k l 0 == sum (firstn (Z.to_nat w) (skipn k x)) / inject_Z w.
Proof.
  intros Hw Hlen. eexists. split; [now apply moving_average_long|].
  rewrite length_map, length_correlate_valid, repeat_length.
  split; [reflexivity|]. intros k Hk. now apply nth_moving_average_long.
Qed.

(** X2.  For a non-empty [x] shorter than the window, the result is not a
    list of window means: it has [w - len(x) + 1] entries, each the sum of
    all of [x] divided by [w]. *)
Theorem moving_average_short_input (x : list Q) (w : Z) :
  x <> [] -> (length x < Z.to_nat w)%nat ->
  exists l,
    moving_average x w = Some l /\
    length l = (Z.to_nat w - length x + 1)%nat /\
    forall k, (k < length l)%nat -> nth k l 0 == sum x / inject_Z w.
Proof.
  intros Hx Hlen. eexists. split; [now apply moving_average_short|].
  rewrite length_map, length_correlate_valid, repeat_length, length_rev.
  split; [reflexivity|]. intros k Hk.
  rewrite nth_scaled_correlate by (now rewrite repeat_length, length_rev).
  rewrite skipn_repeat_le, dot_sum_ones_l by (rewrite length_rev; lia).
  now rewrite sum_rev.
Qed.

(** X3.  [moving_average] raises exactly when the window is 0 or negative
    or [x] is empty. *)
Theorem moving_average_raises_iff (x : list Q) (w : Z) :
  moving_average x w = None <-> (w <= 0)%Z \/ x = [].
Proof.
  split.
  - intros Hnone.
    destruct (Z_lt_le_dec 0 w) as [Hw | Hw]; [|now left].
    destruct x as [|y x]; [now right | exfalso].
    destruct (le_lt_dec (Z.to_nat w) (length (y :: x))) as [Hle | Hlt].
    + rewrite moving_average_long in Hnone by assumption. discriminate.
    + rewrite moving_average_short in Hnone by (assumption || discriminate).
      discriminate.
  - intros [Hw | ->]; unfold moving_average, ones.
    + destruct (Z.ltb_spec w 0); [reflexivity|].
      assert (w = 0%Z) as -> by lia. simpl.
      unfold convolve_valid. simpl. destruct x; reflexivity.
    + destruct (Z.ltb_spec w 0); [reflexivity|]. simpl.
      unfold convolve_valid. simpl.
      destruct (Z.to_nat w); reflexivity.
Qed.

End MovingAverage.

(** ** More on the solver *)

Module SliceFacts.
Import NumPy NumPyFacts.

Lemma dot_sum_zeros_l (n : nat) (l : list Q) : dot_sum (repeat 0 n) l == 0.
Proof.
  revert l; induction n as [|n IH]; intros [|y l]; simpl; try reflexivity.
  rewrite IH. ring.
Qed.

Lemma dot_sum_skip_zeros (p : nat) (v l : list Q) :
  dot_sum (repeat 0 p ++ v) l == dot_sum v (skipn p l).
Proof.
  revert l; induction p as [|p IH]; intros l; simpl; [reflexivity|].
  destruct l as [|y l].
  - destruct v; reflexivity.
  - rewrite IH. ring.
Qed.

Lemma dot_sum_pad_zeros (v l : list Q) (r : nat) :
  dot_sum (v ++ repeat 0 r) l == dot_sum v (firstn (length v) l).
Proof.
  revert l; induction v as [|x v IH]; intros l; simpl.
  - apply dot_sum_zeros_l.
  - destruct l as [|y l]; [reflexivity|]. simpl. now rewrite IH.
Qed.

(** The bounds of [l[a*F:(1+a)*F]] for an action that selects nothing. *)
Lemma slice_bounds_outside {T} (l : list T) (A F a : Z) :
  Z.of_nat (length l) = (A * F)%Z -> (0 < A)%Z -> (0 <= F)%Z ->
  (A <= a \/ a = -1 \/ a < - A)%Z ->
  snd (slice_bounds l (a * F) ((1 + a) * F)) = O.
Proof.
  intros Hl HA HF Ha. unfold slice_bounds, slice_index. rewrite Hl.
  cbn [snd].
  destruct Ha as [Ha | [-> | Ha]].
  - assert (A * F <= a * F)%Z by nia.
    assert (A * F <= (1 + a) * F)%Z by nia.
    assert (0 <= A * F)%Z by nia.
    destruct (Z.ltb_spec (a * F) 0); [lia|].
    destruct (Z.ltb_spec ((1 + a) * F) 0); [lia|]. lia.
  - replace ((1 + -1) * F)%Z with 0%Z by ring.
    assert (0 <= (A - 1) * F)%Z by nia.
    destruct (Z.ltb_spec (-1 * F) 0); destruct (Z.ltb_spec 0 0); lia.
  - assert ((a + A) * F <= 0)%Z by nia.
    assert ((1 + a + A) * F <= 0)%Z by nia.
    assert (0 <= A * F)%Z by nia.
    destruct (Z.ltb_spec (a * F) 0);
      destruct (Z.ltb_spec ((1 + a) * F) 0); nia.
Qed.

(** The bounds for a negative action that counts blocks from the end. *)
Lemma slice_bounds_alias {T} (l : list T) (A F a : Z) :
  Z.of_nat (length l) = (A * F)%Z -> (0 <= F)%Z ->
  (- A <= a <= -2)%Z ->
  slice_bounds l (a * F) ((1 + a) * F)
  = slice_bounds l ((A + a) * F) ((1 + (A + a)) * F).
Proof.
  intros Hl HF Ha.
  rewrite (slice_bounds_block l A F (A + a)) by (assumption || lia).
  unfold slice_bounds, slice_index. rewrite Hl.
  assert (0 <= (A + a) * F)%Z by nia.
  assert ((1 + A + a) * F <= A * F)%Z by nia.
  assert (0 <= (1 + A + a) * F)%Z by nia.
  destruct (Z.ltb_spec (a * F) 0);
    destruct (Z.ltb_spec ((1 + a) * F) 0); f_equal; nia.
Qed.

End SliceFacts.

Section SolverMore.
Import NumPy NumPyFacts SliceFacts.

Variable State : Type.
Variable get_features : State -> list Q.

(** X5.  The action value is the inner product of the weight vector with
    the state-action feature vector: [np.dot] of what
    [get_state_action_features] builds with [theta] equals what
    [get_q_val] computes from the action's block. *)
Theorem q_val_is_inner_product (s : Solver) (st : State) (a : Z) :
  consistent get_features s -> in_range s a ->
  exists phi_s_a q q',
    get_state_action_features State get_features s st a = Some phi_s_a /\
    get_q_val s (get_features st) a = Some q /\
    dot phi_s_a (theta s) = Some q' /\
    q' == q.
Proof.
  intros Hc Ha.
  exists (block_vector s a (get_features st)),
    (action_value s (get_features st) a),
    (dot_sum (block_vector s a (get_features st)) (theta s)).
  split; [now apply get_state_action_features_in_range|].
  split; [now apply get_q_val_state|].
  split.
  - unfold dot.
    rewrite (length_block_vector State get_features) by assumption.
    now rewrite Nat.eqb_refl.
  - unfold block_vector, action_value, block.
    rewrite dot_sum_skip_zeros, dot_sum_pad_zeros.
    destruct Hc as (_ & _ & _ & Hf). specialize (Hf st).
    replace (length (get_features st))
      with (Z.to_nat (number_of_features s)) by lia.
    reflexivity.
Qed.

(** X6.  With at least one feature, an action of [A] or more, the action
    -1 and an action below [-A] select an empty block: [get_q_val] raises
    on the shape mismatch and so does [update_theta], before any weight is
    touched. *)
Theorem action_outside_raises (s : Solver) (st : State) (a : Z) (r : Q)
  (st' : State) (done : bool) :
  consistent get_features s -> (0 < number_of_features s)%Z ->
  (_actions s <= a \/ a = -1 \/ a < - _actions s)%Z ->
  get_q_val s (get_features st) a = None /\
  update_theta State get_features s st a r st' done = None.
Proof.
  intros (HA & HF & Hl & Hf) HFpos Ha.
  assert (Hq : get_q_val s (get_features st) a = None).
  { unfold get_q_val, slice.
    pose proof (slice_bounds_outside (theta s) (_actions s)
                  (number_of_features s) a Hl HA HF Ha) as Hk.
    destruct (slice_bounds (theta s) (a * number_of_features s)
                ((1 + a) * number_of_features s)) as [p k].
    simpl in Hk. subst k. simpl. unfold dot. simpl.
    specialize (Hf st).
    destruct (get_features st); [simpl in Hf; lia | reflexivity]. }
  split; [exact Hq|]. unfold update_theta. now rewrite Hq.
Qed.

(** X7.  A negative action from [-A] to -2 does not raise: it is served as
    action [A + a], the block counted from the end, by [get_q_val] and by
    [update_theta] alike. *)
Theorem negative_action_aliases (s : Solver) (st : State) (a : Z) (r : Q)
  (st' : State) (done : bool) :
  consistent get_features s ->
  (- _actions s <= a <= -2)%Z ->
  get_q_val s (get_features st) a
  = get_q_val s (get_features st) (_actions s + a) /\
  update_theta State get_features s st a r st' done
  = update_theta State get_features s st (_actions s + a) r st' done.
Proof.
  intros (HA & HF & Hl & Hf) Ha.
  assert (Hq : forall phi,
            get_q_val s phi a = get_q_val s phi (_actions s + a)).
  { intros phi. unfold get_q_val, slice.
    now rewrite (slice_bounds_alias (theta s) (_actions s)). }
  assert (Hsa : get_state_action_features State get_features s st a
                = get_state_action_features State get_features s st
                    (_actions s + a)).
  { unfold get_state_action_features, zeros.
    rewrite (Hf st).
    destruct (Z.ltb_spec (number_of_features s * _actions s) 0);
      [reflexivity|].
    simpl. unfold set_slice.
    rewrite (slice_bounds_alias _ (_actions s))
      by (rewrite ?repeat_length; lia).
    reflexivity. }
  split; [apply Hq|]. unfold update_theta. now rewrite Hq, Hsa.
Qed.

(** X8.  When the Bellman error is zero, or the learning rate is zero, the
    update leaves every weight numerically as it was. *)
Theorem update_theta_fixed_point (s s' : Solver) (st : State) (a : Z)
  (r : Q) (st' : State) (done : bool) (delta : Q) :
  consistent get_features s -> in_range s a ->
  update_theta State get_features s st a r st' done = Some (s', delta) ->
  delta == 0 \/ learning_rate s == 0 ->
  Forall2 Qeq (theta s') (theta s).
Proof.
  intros Hc Ha Hup Hzero.
  rewrite (update_theta_inv State get_features _ _ _ _ _ _ _ _ Hc Ha Hup).
  simpl.
  pose proof (length_block_vector State get_features s st a Hc Ha) as Hbv.
  assert (Hc0 : learning_rate s * delta == 0)
    by (destruct Hzero as [-> | ->]; ring).
  apply Forall2_Qeq_nth.
  - rewrite length_zip_plus; [reflexivity|]. now rewrite length_scale.
  - intros i _. rewrite nth_zip_plus by (now rewrite length_scale).
    rewrite nth_scale, Hc0. ring.
Qed.

End SolverMore.

(** ** Construction *)

Section ConstructionFacts.

Variable State : Type.
Variable get_features : State -> list Q.
Variable R : RandomSource.

Lemma uniform_array_draws (g : Rng R) (low high : Q) (n : nat) :
  length (fst (uniform_array R g low high n)) = n /\
  (rng_in_range R -> low <= high ->
   Forall (fun x => low <= x) (fst (uniform_array R g low high n))).
Proof.
  revert g; induction n as [|n IH]; intros g; simpl.
  - split; [reflexivity | intros; constructor].
  - destruct (uniform R g low high) as [x g1] eqn:Hx.
    specialize (IH g1).
    destruct (uniform_array R g1 low high n) as [xs g2]. simpl in *.
    destruct IH as [IHlen IHlow]. split; [now rewrite IHlen|].
    intros Hr Hle. constructor; [|now apply IHlow].
    destruct Hr as [Hlow _]. specialize (Hlow g low high Hle).
    now rewrite Hx in Hlow.
Qed.

Lemma Solver_init_some (features_count number_of_actions : Z)
  (gamma0 learning_rate0 : Q) (g : Rng R) :
  (0 <= number_of_actions * features_count)%Z ->
  exists w g1,
    uniform_array R g (- (1 # 1000)) 0
      (Z.to_nat (number_of_actions * features_count)) = (w, g1) /\
    Solver_init R features_count number_of_actions gamma0 learning_rate0 g
    = Some (mkSolver number_of_actions features_count w gamma0
              learning_rate0, g1).
Proof.
  intros H. unfold Solver_init.
  destruct (Z.ltb_spec (number_of_actions * features_count) 0); [lia|].
  destruct (uniform_array R g (- (1 # 1000)) 0
              (Z.to_nat (number_of_actions * features_count)))
    as [w g1].
  exists w, g1. split; reflexivity.
Qed.

Lemma consistent_fresh (features_count number_of_actions : Z)
  (gamma0 learning_rate0 : Q) (w : list Q) :
  (0 < number_of_actions)%Z -> (0 <= features_count)%Z ->
  (forall st, Z.of_nat (length (get_features st)) = features_count) ->
  length w = Z.to_nat (number_of_actions * features_count) ->
  consistent get_features
    (mkSolver number_of_actions features_count w gamma0 learning_rate0).
Proof.
  intros HA HF Hf Hlen. unfold consistent. simpl. rewrite Hlen.
  split; [exact HA|]. split; [exact HF|]. split; [nia | exact Hf].
Qed.

(** X10.  Constructed for at least one action and for the feature count of
    a pipeline that yields that many features for every state, the solver
    is consistent: its weight vector has [A * F] entries, none below
    -0.001, and the discount and learning rate are the ones passed in. *)
Theorem Solver_init_consistent (features_count number_of_actions : Z)
  (gamma0 learning_rate0 : Q) (g : Rng R) :
  (0 < number_of_actions)%Z -> (0 <= features_count)%Z ->
  (forall st, Z.of_nat (length (get_features st)) = features_count) ->
  rng_in_range R ->
  exists s g',
    Solver_init R features_count number_of_actions gamma0 learning_rate0 g
    = Some (s, g') /\
    consistent get_features s /\
    _actions s = number_of_actions /\
    number_of_features s = features_count /\
    gamma s = gamma0 /\ learning_rate s = learning_rate0 /\
    Forall (fun x => - (1 # 1000) <= x) (theta s).
Proof.
  intros HA HF Hf Hr.
  destruct (Solver_init_some features_count number_of_actions gamma0
              learning_rate0 g ltac:(nia)) as (w & g1 & Hdraw & Hinit).
  destruct (uniform_array_draws g (- (1 # 1000)) 0
              (Z.to_nat (number_of_actions * features_count)))
    as [Hlen Hlow].
  rewrite Hdraw in Hlen, Hlow. simpl in Hlen, Hlow.
  exists (mkSolver number_of_actions features_count w gamma0 learning_rate0),
    g1.
  split; [exact Hinit|].
  split; [now apply consistent_fresh|]. simpl.
  repeat (split; [reflexivity|]). apply Hlow; [exact Hr | discriminate].
Qed.

End ConstructionFacts.

(** ** More on the episode runner *)

Section RunnerMore.
Import NumPy NumPyFacts.

Variable State : Type.
Variable get_features : State -> list Q.
Variable E : Environment State.
Variable R : RandomSource.

Lemma modify_reward_goal (r : Q) : r == 1 -> modify_reward r = 100.
Proof.
  intros H. unfold modify_reward.
  destruct (Qeq_bool (r - 1) 0) eqn:Hb; [reflexivity|].
  apply Qeq_bool_neq in Hb. exfalso. apply Hb. rewrite H. reflexivity.
Qed.

Lemma modify_reward_step (r : Q) : r == 0 -> modify_reward r == -1.
Proof.
  intros H. unfold modify_reward.
  destruct (Qeq_bool (r - 1) 0) eqn:Hb.
  - apply Qeq_bool_eq in Hb. exfalso. rewrite H in Hb. discriminate Hb.
  - rewrite H. reflexivity.
Qed.

Lemma same_shape_refl (s : Solver) : same_shape s s.
Proof. unfold same_shape. auto. Qed.

Lemma same_shape_trans (s1 s2 s3 : Solver) :
  same_shape s1 s2 -> same_shape s2 s3 -> same_shape s1 s3.
Proof.
  unfold same_shape. intros (A1 & F1 & G1 & L1 & T1) (A2 & F2 & G2 & L2 & T2).
  repeat split; congruence.
Qed.

(** *** The terminal flags seen by a run *)

Lemma episode_loop_dones (fuel : nat) (is_train : bool)
  (epsilon : option Q) (max_steps : Z) (l : Loop State E R)
  (ep : Episode State E R) :
  Forall (fun d => d = false) (dones l) ->
  length (dones l) = length (actions l) ->
  episode_loop State get_features E R fuel is_train epsilon max_steps l
  = Finished ep ->
  exists earlier d,
    dones (at_exit ep) = earlier ++ [d] /\
    Forall (fun x => x = false) earlier /\
    length (dones (at_exit ep)) = length (actions (at_exit ep)).
Proof.
  revert l. induction fuel as [|fuel IH]; intros l Hall Hlen Hep;
    [discriminate|].
  destruct (iteration State get_features E R is_train epsilon l)
    as [[l1 done]|] eqn:Hit.
  - rewrite (episode_loop_unfold _ _ _ _ _ _ _ _ _ _ _ Hit) in Hep.
    destruct (iteration_step_count _ _ _ _ _ _ _ _ _ Hit) as (_ & Hd & Ha).
    destruct done.
    + simpl in Hep. inversion Hep; subst. simpl.
      exists (dones l), true. rewrite Hd, length_app. simpl.
      split; [reflexivity|]. split; [exact Hall | lia].
    + simpl in Hep.
      destruct (step_count l + 1 =? max_steps)%Z.
      * inversion Hep; subst. simpl.
        exists (dones l), false. rewrite Hd, length_app. simpl.
        split; [reflexivity|]. split; [exact Hall | lia].
      * apply (IH l1); [ | | exact Hep].
        -- rewrite Hd. apply Forall_app. split; [exact Hall|].
           constructor; [reflexivity | constructor].
        -- rewrite Hd, length_app. simpl. lia.
  - simpl in Hep. rewrite Hit in Hep. discriminate.
Qed.

(** X11.  A run stops at the first terminal signal: of the flags the
    simulator returned, one per step, all but the last are false. *)
Theorem run_episode_stops_at_first_terminal (fuel : nat) (e : Env E)
  (s : Solver) (g : Rng R) (is_train : bool) (epsilon : option Q)
  (max_steps : Z) (render : bool) (ep : Episode State E R) :
  run_episode State get_features E R fuel e s g is_train epsilon max_steps
    render = Finished ep ->
  exists earlier d,
    dones (at_exit ep) = earlier ++ [d] /\
    Forall (fun x => x = false) earlier /\
    length (dones (at_exit ep)) = length (actions (at_exit ep)).
Proof.
  unfold run_episode.
  destruct (start_state State E R e g is_train) as [[st e1] g1].
  apply episode_loop_dones; simpl; [constructor | reflexivity].
Qed.

(** *** The return under the goal-only reward convention *)

Lemma episode_loop_gain (fuel : nat) (is_train : bool)
  (epsilon : option Q) (max_steps : Z) (l : Loop State E R)
  (ep : Episode State E R) :
  rewards_goal_only E ->
  episode_gain l == - inject_Z (step_count l) ->
  episode_loop State get_features E R fuel is_train epsilon max_steps l
  = Finished ep ->
  (last (dones (at_exit ep)) false = true /\
   gain ep == 101 - inject_Z (step_count (at_exit ep))) \/
  (last (dones (at_exit ep)) false = false /\
   gain ep == - inject_Z (step_count (at_exit ep)) /\
   step_count (at_exit ep) = max_steps).
Proof.
  intros Hconv. revert l.
  induction fuel as [|fuel IH]; intros l Hgain Hep; [discriminate|].
  destruct (iteration State get_features E R is_train epsilon l)
    as [[l1 done]|] eqn:Hit.
  - rewrite (episode_loop_unfold _ _ _ _ _ _ _ _ _ _ _ Hit) in Hep.
    pose proof Hit as Hinv. apply iteration_inv in Hinv.
    destruct Hinv as (a & g1 & ns & r1 & e1 & s1 & d1 & _ & Hstep & _ & Hl1).
    pose proof (Hconv (env l) a) as Hr. rewrite Hstep in Hr. simpl in Hr.
    assert (Hs1 : step_count l1 = (step_count l + 1)%Z) by (now subst l1).
    assert (Hg1 : episode_gain l1 = episode_gain l + modify_reward r1)
      by (now subst l1).
    assert (Hd1 : dones l1 = dones l ++ [done]) by (now subst l1).
    assert (Hinj : inject_Z (step_count l + 1)
                   == inject_Z (step_count l) + 1)
      by (rewrite inject_Z_plus; reflexivity).
    destruct done.
    + simpl in Hep. inversion Hep; subst ep. simpl. left.
      split; [rewrite Hd1; apply last_last|].
      rewrite Hg1, Hs1, (modify_reward_goal r1 Hr), Hgain, Hinj. ring.
    + simpl in Hep.
      assert (Hg1' : episode_gain l1 == - inject_Z (step_count l1)).
      { rewrite Hg1, Hs1, (modify_reward_step r1 Hr), Hgain, Hinj. ring. }
      destruct (Z.eqb_spec (step_count l + 1) max_steps) as [Heq | Hne].
      * inversion Hep; subst ep. simpl. right.
        split; [rewrite Hd1; apply last_last|].
        split; [exact Hg1' | congruence].
      * now apply (IH l1).
  - simpl in Hep. rewrite Hit in Hep. discriminate.
Qed.

(** X12.  Under the goal-only reward convention and a step budget of at
    least 1, the return of a run is minus the budget exactly when the
    budget ran out without a terminal signal; a run ended by the terminal
    signal after [n] steps returns [101 - n], which is larger. *)
Theorem run_episode_return_tells_failure (fuel : nat) (e : Env E)
  (s : Solver) (g : Rng R) (is_train : bool) (epsilon : option Q)
  (max_steps : Z) (render : bool) (ep : Episode State E R) :
  rewards_goal_only E ->
  (1 <= max_steps)%Z -> (Z.to_nat max_steps <= fuel)%nat ->
  run_episode State get_features E R fuel e s g is_train epsilon max_steps
    render = Finished ep ->
  (gain ep == - inject_Z max_steps
   <-> last (dones (at_exit ep)) false = false) /\
  (last (dones (at_exit ep)) false = true ->
   gain ep == 101 - inject_Z (step_count (at_exit ep)) /\
   - inject_Z max_steps < gain ep).
Proof.
  intros Hconv Hmax Hfuel. unfold run_episode.
  destruct (start_state State E R e g is_train) as [[st e1] g1].
  set (l := mkLoop State E R e1 s g1 st 0%Z 0 [] [] [] []).
  intros Hep.
  destruct (episode_loop_within_budget State get_features E R fuel is_train
              epsilon max_steps l) as [_ Hfin]; [simpl; lia | simpl; lia |].
  destruct (Hfin ep Hep) as ((_ & Hle) & _ & _).
  assert (Hbig : last (dones (at_exit ep)) false = true ->
            gain ep == 101 - inject_Z (step_count (at_exit ep)) ->
            - inject_Z max_steps < gain ep).
  { intros _ Hg. rewrite Hg.
    assert (inject_Z (step_count (at_exit ep)) <= inject_Z max_steps)
      by (rewrite <- Zle_Qle; exact Hle).
    lra. }
  destruct (episode_loop_gain fuel is_train epsilon max_steps l ep Hconv
              ltac:(reflexivity) Hep)
    as [[Hlast Hg] | [Hlast [Hg Hn]]].
  - split.
    + split; [|intros H; congruence].
      intros Heq. pose proof (Hbig Hlast Hg) as Hlt.
      rewrite Heq in Hlt. exfalso. lra.
    + intros _. split; [exact Hg | now apply Hbig].
  - split.
    + split; [intros _; exact Hlast|].
      intros _. rewrite Hg, Hn. reflexivity.
    + intros H. congruence.
Qed.

(** *** The shape of the solver *)

Lemma iteration_shape (is_train : bool) (epsilon : option Q)
  (l l1 : Loop State E R) (done : bool) :
  consistent get_features (solver l) -> rng_in_range R ->
  action_space_n E = _actions (solver l) ->
  iteration State get_features E R is_train epsilon l = Some (l1, done) ->
  consistent get_features (solver l1) /\
  same_shape (solver l) (solver l1).
Proof.
  intros Hc Hr HA Hit.
  destruct (select_action_total State get_features E R (solver l) (rng l)
              (state l) epsilon Hc Hr HA) as (a0 & g0 & Hsel0 & Ha0).
  apply iteration_inv in Hit.
  destruct Hit as (a & g1 & ns & r1 & e1 & s1 & d1 & Hsel & _ & Hmode & ->).
  rewrite Hsel0 in Hsel. inversion Hsel; subst a0 g0. simpl.
  destruct is_train.
  - destruct Hmode as (delta & Hup & _).
    destruct (update_theta_consistent State get_features _ _ _ _ _ _ _ _
                Hc Ha0 Hup) as [Hc1 _].
    split; [exact Hc1|].
    rewrite (update_theta_inv State get_features _ _ _ _ _ _ _ _
               Hc Ha0 Hup).
    unfold same_shape. simpl. repeat split.
    rewrite length_zip_plus; [reflexivity|].
    now rewrite length_scale, length_block_vector.
  - destruct Hmode as [-> _]. split; [exact Hc | apply same_shape_refl].
Qed.

Lemma episode_loop_shape (fuel : nat) (is_train : bool)
  (epsilon : option Q) (max_steps : Z) (l : Loop State E R)
  (ep : Episode State E R) :
  consistent get_features (solver l) -> rng_in_range R ->
  action_space_n E = _actions (solver l) ->
  episode_loop State get_features E R fuel is_train epsilon max_steps l
  = Finished ep ->
  consistent get_features (solver (at_exit ep)) /\
  same_shape (solver l) (solver (at_exit ep)).
Proof.
  intros Hc Hr. revert l Hc.
  induction fuel as [|fuel IH]; intros l Hc HA Hep; [discriminate|].
  destruct (iteration State get_features E R is_train epsilon l)
    as [[l1 done]|] eqn:Hit.
  - rewrite (episode_loop_unfold _ _ _ _ _ _ _ _ _ _ _ Hit) in Hep.
    destruct (iteration_shape _ _ _ _ _ Hc Hr HA Hit) as [Hc1 Hsh].
    destruct (done || (step_count l + 1 =? max_steps)%Z).
    + inversion Hep; subst ep. simpl. split; assumption.
    + destruct (IH l1 Hc1) as [Hc2 Hsh2]; [ | exact Hep | ].
      * destruct Hsh as (HA1 & _). congruence.
      * split; [exact Hc2 | eapply same_shape_trans; eassumption].
  - simpl in Hep. rewrite Hit in Hep. discriminate.
Qed.

Lemma run_episode_shape (fuel : nat) (e : Env E) (s : Solver) (g : Rng R)
  (is_train : bool) (epsilon : option Q) (max_steps : Z) (render : bool)
  (ep : Episode State E R) :
  consistent get_features s -> rng_in_range R ->
  action_space_n E = _actions s ->
  run_episode State get_features E R fuel e s g is_train epsilon max_steps
    render = Finished ep ->
  consistent get_features (solver (at_exit ep)) /\
  same_shape s (solver (at_exit ep)).
Proof.
  intros Hc Hr HA. unfold run_episode.
  destruct (start_state State E R e g is_train) as [[st e1] g1].
  intros Hep.
  apply (episode_loop_shape fuel is_train epsilon max_steps
           (mkLoop State E R e1 s g1 st 0%Z 0 [] [] [] []) ep Hc Hr HA Hep).
Qed.

(** X13.  Training changes the values of the weights and nothing else: a
    run on a consistent solver, with a simulator of as many actions, never
    raises, and the solver it leaves is consistent with the same action
    and feature counts, discount, learning rate and weight-vector
    length. *)
Theorem run_episode_keeps_shape (fuel : nat) (e : Env E) (s : Solver)
  (g : Rng R) (is_train : bool) (epsilon : option Q) (max_steps : Z)
  (render : bool) :
  consistent get_features s -> rng_in_range R ->
  action_space_n E = _actions s ->
  run_episode State get_features E R fuel e s g is_train epsilon max_steps
    render <> Exception /\
  forall ep,
    run_episode State get_features E R fuel e s g is_train epsilon
      max_steps render = Finished ep ->
    consistent get_features (solver (at_exit ep)) /\
    same_shape s (solver (at_exit ep)).
Proof.
  intros Hc Hr HA. split.
  - unfold run_episode.
    destruct (start_state State E R e g is_train) as [[st e1] g1].
    set (l := mkLoop State E R e1 s g1 st 0%Z 0 [] [] [] []).
    assert (Hcl : consistent get_features (solver l)) by exact Hc.
    assert (HAl : action_space_n E = _actions (solver l)) by exact HA.
    clearbody l. revert l Hcl HAl.
    induction fuel as [|fuel IH]; intros l Hcl HAl; [discriminate|].
    destruct (iteration_total State get_features E R is_train epsilon l
                Hcl Hr HAl) as (l1 & done & Hit & Hc1 & HA1).
    rewrite (episode_loop_unfold _ _ _ _ _ _ _ _ _ _ _ Hit).
    destruct (done || (step_count l + 1 =? max_steps)%Z); [discriminate|].
    apply IH; [exact Hc1 | congruence].
  - intros ep Hep. now apply (run_episode_shape fuel e s g is_train epsilon
                                max_steps render).
Qed.

End RunnerMore.

(** ** Evaluation and the training loop *)

Module ScheduleFacts.

Lemma py_max_compat (a a' b : Q) : a == a' -> py_max a b == py_max a' b.
Proof.
  intros H. unfold py_max.
  destruct (Qlt_le_dec a b); destruct (Qlt_le_dec a' b);
    try reflexivity; try exact H; lra.
Qed.

Lemma py_max_small (a b : Q) : a <= b -> py_max a b == b.
Proof.
  intros H. unfold py_max. destruct (Qlt_le_dec a b); [reflexivity | lra].
Qed.

Lemma py_max_large (a b : Q) : b <= a -> py_max a b == a.
Proof.
  intros H. unfold py_max. destruct (Qlt_le_dec a b); [lra | reflexivity].
Qed.

Lemma py_max_lower (a b : Q) : b <= py_max a b.
Proof.
  unfold py_max. destruct (Qlt_le_dec a b); [apply Qle_refl | assumption].
Qed.

Lemma Qpower_succ (d : Q) (n : nat) :
  d ^ Z.of_nat (S n) == d ^ Z.of_nat n * d.
Proof.
  replace (Z.of_nat (S n)) with (Z.of_nat n + 1)%Z by lia.
  rewrite Qpower_plus' by lia. now rewrite Qpower_1_r.
Qed.

Lemma Qpower_unit_interval (d : Q) (n : nat) :
  0 <= d <= 1 -> 0 <= d ^ Z.of_nat n <= 1.
Proof.
  intros Hd. induction n as [|n IH].
  - simpl. split; discriminate.
  - rewrite Qpower_succ. split; nra.
Qed.

Lemma decayed_succ (dec min : Q) (n : nat) (e : Q) :
  decayed dec min (S n) e = py_max (decayed dec min n e * dec) min.
Proof. reflexivity. Qed.

Lemma decayed_shift (dec min : Q) (n : nat) (e : Q) :
  decayed dec min (S n) e = decayed dec min n (py_max (e * dec) min).
Proof.
  unfold decayed.
  exact (Nat.iter_succ_r n Q (fun x => py_max (x * dec) min) e).
Qed.

(** The schedule in closed form. *)
Lemma decayed_closed_form (dec min : Q) (n : nat) (e : Q) :
  0 <= dec <= 1 -> 0 <= min -> (0 < n)%nat ->
  decayed dec min n e == py_max (e * dec ^ Z.of_nat n) min.
Proof.
  intros Hd Hm. induction n as [|n IH]; intros Hn; [lia|].
  rewrite decayed_succ. destruct n as [|n].
  - apply py_max_compat. simpl. unfold decayed. simpl. ring.
  - rewrite (py_max_compat _ _ _
               (Qmult_comp _ _ (IH ltac:(lia)) _ _ (Qeq_refl dec))).
    set (x := e * dec ^ Z.of_nat (S n)).
    assert (Hx : e * dec ^ Z.of_nat (S (S n)) == x * dec)
      by (unfold x; rewrite (Qpower_succ dec (S n)); ring).
    rewrite (py_max_compat _ _ _ Hx).
    destruct (Qlt_le_dec x min) as [Hlt | Hge].
    + rewrite (py_max_compat _ _ _
                 (Qmult_comp _ _ (py_max_small x min ltac:(lra)) _ _
                    (Qeq_refl dec))).
      rewrite py_max_small by nra.
      rewrite py_max_small; [reflexivity|].
      destruct (Qlt_le_dec x 0); nra.
    + apply py_max_compat.
      rewrite (py_max_large x min Hge). reflexivity.
Qed.

(** The schedule stays between the floor and the larger of its start and
    the floor. *)
Lemma decayed_bounds (dec min : Q) (n : nat) (e : Q) :
  0 <= dec <= 1 -> 0 <= min -> (0 < n)%nat ->
  min <= decayed dec min n e /\ decayed dec min n e <= py_max e min.
Proof.
  intros Hd Hm Hn. rewrite decayed_closed_form by assumption.
  split; [apply py_max_lower|].
  pose proof (Qpower_unit_interval dec n Hd) as Hp.
  set (p := dec ^ Z.of_nat n) in *.
  unfold py_max.
  destruct (Qlt_le_dec (e * p) min); destruct (Qlt_le_dec e min);
    try apply Qle_refl; try lra; nra.
Qed.

(** A decay factor of 1 leaves the schedule at that larger value. *)
Lemma decayed_constant (dec min : Q) (n : nat) (e : Q) :
  dec == 1 -> 0 <= min -> (0 < n)%nat ->
  decayed dec min n e == py_max e min.
Proof.
  intros Hd Hm Hn.
  rewrite decayed_closed_form
    by (try assumption; rewrite Hd; split; discriminate).
  apply py_max_compat. rewrite Hd, Qpower_1. ring.
Qed.

Lemma evaluation_SR_unit (test_gains : list Q) :
  (length test_gains <= 10)%nat ->
  0 <= evaluation_SR test_gains <= 1.
Proof.
  intros Hlen. unfold evaluation_SR, count_failures.
  pose proof (filter_length_le (fun x => Qeq_bool x (-200)) test_gains)
    as Hf.
  set (f := length (filter (fun x => Qeq_bool x (-200)) test_gains)) in *.
  assert (H0 : 0 <= inject_Z (10 - Z.of_nat f)).
  { change 0 with (inject_Z 0). rewrite <- Zle_Qle. lia. }
  assert (H1 : inject_Z (10 - Z.of_nat f) <= 10).
  { change 10 with (inject_Z 10). rewrite <- Zle_Qle. lia. }
  split.
  - apply Qle_shift_div_l; [reflexivity | lra].
  - apply Qle_shift_div_r; [reflexivity | lra].
Qed.

Lemma all_defined (l : list (option Q)) :
  Forall (fun x => x <> None) l -> exists xs, l = map Some xs.
Proof.
  induction 1 as [|x l Hx _ [xs ->]].
  - now exists [].
  - destruct x as [q|]; [|congruence]. now exists (q :: xs).
Qed.

End ScheduleFacts.

Section TrainingFacts.
Import NumPy NumPyFacts ScheduleFacts.

Variable State : Type.
Variable get_features : State -> list Q.
Variable E : Environment State.
Variable R : RandomSource.
Variable s0 : State.

Lemma default_budget :
  (1 <= default_max_steps)%Z /\
  (Z.to_nat default_max_steps <= Z.to_nat default_max_steps)%nat.
Proof. split; [unfold default_max_steps; lia | apply Nat.le_refl]. Qed.

Lemma run_episode_eval_solver (fuel : nat) (e : Env E) (s : Solver)
  (g : Rng R) (epsilon : option Q) (max_steps : Z) (render : bool)
  (ep : Episode State E R) :
  run_episode State get_features E R fuel e s g false epsilon max_steps
    render = Finished ep ->
  solver (at_exit ep) = s.
Proof.
  unfold run_episode.
  destruct (start_state State E R e g false) as [[st e1] g1].
  intros Hep.
  assert (Ht : tracked false s
                 (mkLoop State E R e1 s g1 st 0%Z 0 [] [] [] []))
    by (unfold tracked; simpl; split; [reflexivity | auto]).
  destruct (episode_loop_tracked State get_features E R fuel false s
              epsilon max_steps _ ep Ht Hep) as ((_ & _ & _ & Hs) & _).
  exact Hs.
Qed.

Lemma run_episode_train_mean (fuel : nat) (e : Env E) (s : Solver)
  (g : Rng R) (epsilon : option Q) (max_steps : Z) (render : bool)
  (ep : Episode State E R) :
  run_episode State get_features E R fuel e s g true epsilon max_steps
    render = Finished ep ->
  exists m, mean_delta ep = Some m.
Proof.
  unfold run_episode.
  destruct (start_state State E R e g true) as [[st e1] g1].
  intros Hep.
  assert (Ht : tracked true s
                 (mkLoop State E R e1 s g1 st 0%Z 0 [] [] [] []))
    by (unfold tracked; simpl; split; [reflexivity | auto]).
  destruct (episode_loop_tracked State get_features E R fuel true s
              epsilon max_steps _ ep Ht Hep)
    as ((_ & _ & Hd) & _ & Hmean & Hsteps).
  rewrite Hmean. simpl in Hsteps.
  destruct (deltas (at_exit ep)) as [|d ds]; [simpl in Hd; lia|].
  eexists. reflexivity.
Qed.

Lemma and_then_inv {A B} (m : outcome A) (k : A -> outcome B) (b : B) :
  and_then m k = Finished b ->
  exists a, m = Finished a /\ k a = Finished b.
Proof.
  destruct m as [a| |]; simpl; intros H; try discriminate. eauto.
Qed.

Lemma lift_inv {A} (m : option A) (a : A) :
  lift m = Finished a -> m = Some a.
Proof. destruct m; simpl; intros H; now inversion H. Qed.

(** *** Evaluation episodes *)

Lemma test_episodes_inv (n : nat) (e : Env E) (s : Solver) (g : Rng R)
  (epsilon : option Q) (gains : list Q) (rest : Env E * Solver * Rng R) :
  test_episodes State get_features E R n e s g epsilon
  = Finished (gains, rest) ->
  length gains = n /\ snd (fst rest) = s.
Proof.
  revert e s g gains rest.
  induction n as [|n IH]; intros e s g gains rest H.
  - simpl in H. inversion H. split; reflexivity.
  - cbn [test_episodes] in H.
    apply and_then_inv in H. destruct H as (ep & Hep & H).
    apply and_then_inv in H. destruct H as ([gs rest'] & Hrec & H).
    inversion H; subst.
    destruct (IH _ _ _ _ _ Hrec) as [Hlen Hs].
    split; [simpl; now rewrite Hlen|].
    rewrite Hs. unfold run_default in Hep.
    now apply run_episode_eval_solver in Hep.
Qed.

Lemma run_default_total (e : Env E) (s : Solver) (g : Rng R)
  (is_train : bool) (epsilon : option Q) (render : bool) :
  consistent get_features s -> rng_in_range R ->
  action_space_n E = _actions s ->
  exists ep,
    run_default State get_features E R e s g is_train epsilon render
    = Finished ep /\
    consistent get_features (solver (at_exit ep)) /\
    same_shape s (solver (at_exit ep)).
Proof.
  intros Hc Hr HA. unfold run_default.
  destruct default_budget as [H1 H2].
  destruct (run_episode_finishes State get_features E R
              (Z.to_nat default_max_steps) e s g is_train epsilon
              default_max_steps render Hc Hr HA H1 H2) as (ep & Hep).
  exists ep. split; [exact Hep|].
  exact (run_episode_shape State get_features E R
           (Z.to_nat default_max_steps) e s g is_train epsilon
           default_max_steps render ep Hc Hr HA Hep).
Qed.

Lemma test_episodes_total (n : nat) (e : Env E) (s : Solver) (g : Rng R)
  (epsilon : option Q) :
  consistent get_features s -> rng_in_range R ->
  action_space_n E = _actions s ->
  exists gains e' g',
    test_episodes State get_features E R n e s g epsilon
    = Finished (gains, (e', s, g')).
Proof.
  intros Hc Hr HA. revert e g.
  induction n as [|n IH]; intros e g.
  - exists [], e, g. reflexivity.
  - destruct (run_default_total e s g false epsilon false Hc Hr HA)
      as (ep & Hep & _).
    pose proof Hep as Hs. unfold run_default in Hs.
    apply run_episode_eval_solver in Hs.
    destruct (IH (env (at_exit ep)) (rng (at_exit ep)))
      as (gains & e' & g' & Hrec).
    exists (gain ep :: gains), e', g'.
    cbn [test_episodes]. rewrite Hep. cbn [and_then].
    rewrite Hs, Hrec. reflexivity.
Qed.

(** X14.  On at most ten returns the success rate of the evaluation block
    lies between 0 and 1; it is 1 exactly when no return equals -200. *)
Theorem evaluation_SR_in_unit_interval (test_gains : list Q) :
  (length test_gains <= 10)%nat ->
  0 <= evaluation_SR test_gains <= 1 /\
  (evaluation_SR test_gains == 1 <-> count_failures test_gains = 0%Z).
Proof.
  intros Hlen. split; [now apply evaluation_SR_unit|].
  unfold evaluation_SR.
  set (f := count_failures test_gains).
  split.
  - intros H.
    assert (H10 : inject_Z (10 - f) == inject_Z 10).
    { apply (Qmult_inj_r _ _ (/ 10)); [discriminate|].
      unfold Qdiv in H. rewrite H. reflexivity. }
    apply (proj1 (inject_Z_injective _ _)) in H10. lia.
  - intros ->. reflexivity.
Qed.

(** X15.  What [evaluate_criterion] returns as success rate is a tenth of
    the return of its second episode, whatever the other nine are; when
    that return is negative it is negative, while the evaluation block's
    rate on the same returns is not.  The ten episodes leave the solver as
    it was. *)
Theorem evaluate_criterion_SR_is_second_return (e : Env E) (s : Solver)
  (g : Rng R) (mean_test_gain : option Q) (SR : Q)
  (rest : Env E * Solver * Rng R) :
  evaluate_criterion State get_features E R e s g
  = Finished (mean_test_gain, SR, rest) ->
  exists test_gains,
    test_episodes State get_features E R 10 e s g None
    = Finished (test_gains, rest) /\
    length test_gains = 10%nat /\
    snd (fst rest) = s /\
    mean_test_gain = mean test_gains /\
    SR = nth 1 test_gains 0 / 10 /\
    (nth 1 test_gains 0 < 0 -> SR < 0 <= evaluation_SR test_gains).
Proof.
  unfold evaluate_criterion. intros H.
  apply and_then_inv in H. destruct H as ([gains rest'] & Htest & H).
  apply and_then_inv in H. destruct H as (sr & Hsr & H).
  inversion H; subst. apply lift_inv in Hsr.
  destruct (test_episodes_inv _ _ _ _ _ _ _ Htest) as [Hlen Hs].
  exists gains. split; [exact Htest|]. split; [exact Hlen|].
  split; [exact Hs|]. split; [reflexivity|].
  unfold evaluate_criterion_SR in Hsr.
  destruct gains as [|x0 [|x1 gains]]; try discriminate.
  simpl in Hsr. inversion Hsr; subst. simpl nth.
  split; [reflexivity|]. intros Hneg. split.
  - apply Qlt_shift_div_r; [reflexivity | lra].
  - apply evaluation_SR_unit. rewrite Hlen. apply Nat.le_refl.
Qed.

(** *** One pass through the loop body *)

Lemma evaluation_block_inv (t t' : Training State E R) (stop : bool) :
  evaluation_block State get_features E R t = Finished (t', stop) ->
  reward_for_plot t' = reward_for_plot t /\
  initial_state_value_for_plot t' = initial_state_value_for_plot t /\
  avg_bellman_err_for_plot t' = avg_bellman_err_for_plot t /\
  epsilon_current t' = epsilon_current t /\
  exists test_gains,
    length test_gains = 10%nat /\
    SR_for_plot t' = SR_for_plot t ++ [evaluation_SR test_gains].
Proof.
  unfold evaluation_block. intros H.
  apply and_then_inv in H.
  destruct H as ([gains [[e1 s1] g1]] & Htest & H).
  destruct (test_episodes_inv _ _ _ _ _ _ _ Htest) as [Hlen _].
  cbn beta iota in H.
  destruct (match mean gains with
            | Some m => Qle_bool (-75) m
            | None => false
            end).
  - apply and_then_inv in H. destruct H as (ep & _ & H).
    inversion H; subst. simpl. repeat (split; [reflexivity|]).
    exists gains. split; [exact Hlen | reflexivity].
  - inversion H; subst. simpl. repeat (split; [reflexivity|]).
    exists gains. split; [exact Hlen | reflexivity].
Qed.

Lemma training_episode_inv (dec min : Q) (i : Z)
  (t t' : Training State E R) (stop : bool) :
  training_episode State get_features E R s0 dec min i t
  = Finished (t', stop) ->
  exists gn v m sr_tail,
    reward_for_plot t' = reward_for_plot t ++ [gn] /\
    initial_state_value_for_plot t'
    = initial_state_value_for_plot t ++ [v] /\
    avg_bellman_err_for_plot t' = avg_bellman_err_for_plot t ++ [Some m] /\
    epsilon_current t' = py_max (epsilon_current t * dec) min /\
    SR_for_plot t' = SR_for_plot t ++ sr_tail /\
    if (i mod 10 =? 9)%Z then
      exists test_gains,
        length test_gains = 10%nat /\ sr_tail = [evaluation_SR test_gains]
    else sr_tail = [] /\ stop = false.
Proof.
  unfold training_episode. intros H.
  apply and_then_inv in H. destruct H as (ep & Hep & H).
  apply and_then_inv in H. destruct H as (a & _ & H).
  apply and_then_inv in H. destruct H as (v & _ & H).
  unfold run_default in Hep.
  destruct (run_episode_train_mean _ _ _ _ _ _ _ _ Hep) as (m & Hm).
  rewrite Hm in H.
  exists (gain ep), v, m.
  destruct (i mod 10 =? 9)%Z.
  - apply evaluation_block_inv in H. simpl in H.
    destruct H as (-> & -> & -> & -> & gains & Hlen & ->).
    exists [evaluation_SR gains].
    repeat (split; [reflexivity|]). exists gains. split; auto.
  - inversion H; subst. simpl. exists [].
    repeat (split; [reflexivity|]). rewrite app_nil_r. auto.
Qed.

(** *** The whole loop *)

Lemma training_loop_books (dec min : Q) (n k : nat)
  (t t' : Training State E R) (stop : bool) :
  curves_in_step t -> length (reward_for_plot t) = k ->
  training_loop State get_features E R s0 dec min
    (map Z.of_nat (seq (S k) n)) t = Finished (t', stop) ->
  curves_in_step t' /\
  exists j,
    length (reward_for_plot t') = (k + j)%nat /\ (j <= n)%nat /\
    epsilon_current t' = decayed dec min j (epsilon_current t) /\
    (stop = true -> (0 < j)%nat /\ (Z.of_nat (k + j) mod 10 = 9)%Z) /\
    (stop = false -> j = n).
Proof.
  revert k t. induction n as [|n IH]; intros k t Hcur Hk H.
  - simpl in H. inversion H; subst. split; [exact Hcur|].
    exists O. rewrite Nat.add_0_r. repeat split; auto; discriminate.
  - cbn [seq map training_loop] in H.
    apply and_then_inv in H. destruct H as ([t1 stop1] & Hone & H).
    destruct (training_episode_inv _ _ _ _ _ _ Hone)
      as (gn & v & m & sr_tail & Hrew & Hinit & Herr & Heps & Hsr & Htail).
    destruct Hcur as (C1 & C2 & C3 & C4 & C5).
    assert (Hk1 : length (reward_for_plot t1) = S k)
      by (rewrite Hrew, length_app; simpl; lia).
    assert (Hcur1 : curves_in_step t1).
    { unfold curves_in_step. rewrite Hrew, Hinit, Herr, Hsr.
      rewrite !length_app. simpl length.
      split; [lia|]. split; [lia|]. rewrite Hk in *.
      destruct (Z.eqb_spec (Z.of_nat (S k) mod 10) 9) as [Hmod | Hmod].
      - destruct Htail as (gains & Hg & ->). simpl length.
        split; [|split].
        + revert Hmod C3. clear.
          intros Hmod C3. Z.div_mod_to_equations. lia.
        + apply Forall_app. split; [exact C4|].
          constructor; [discriminate | constructor].
        + apply Forall_app. split; [exact C5|].
          constructor; [|constructor].
          apply evaluation_SR_unit. rewrite Hg. apply Nat.le_refl.
      - destruct Htail as [-> _]. simpl length.
        split; [|split].
        + revert Hmod C3. clear.
          intros Hmod C3. Z.div_mod_to_equations. lia.
        + apply Forall_app. split; [exact C4|].
          constructor; [discriminate | constructor].
        + now rewrite app_nil_r. }
    cbn beta iota in H. destruct stop1.
    + injection H as <- <-. split; [exact Hcur1|].
      exists 1%nat. split; [lia|]. split; [lia|].
      split; [exact Heps|]. split; [|discriminate].
      intros _. split; [lia|].
      destruct (Z.eqb_spec (Z.of_nat (S k) mod 10) 9) as [Hmod | Hmod].
      * replace (k + 1)%nat with (S k) by lia. exact Hmod.
      * destruct Htail as [_ Hstop]. discriminate.
    + destruct (IH (S k) t1 Hcur1 Hk1 H)
        as (Hcur' & j & Hlen & Hj & Hepsj & Hst & Hnst).
      split; [exact Hcur'|].
      exists (S j). split; [lia|]. split; [lia|].
      split; [rewrite Hepsj, Heps; symmetry; apply decayed_shift|].
      split.
      * intros Hs. destruct (Hst Hs) as [_ Hmod]. split; [lia|].
        replace (k + S j)%nat with (S k + j)%nat by lia. exact Hmod.
      * intros Hs. now rewrite (Hnst Hs).
Qed.

Lemma curves_in_step_start (e : Env E) (s : Solver) (g : Rng R)
  (epsilon : Q) :
  curves_in_step (mkTraining State E R e s g epsilon [] [] [] []).
Proof.
  unfold curves_in_step. simpl.
  split; [reflexivity|]. split; [reflexivity|]. split; [reflexivity|].
  split; constructor.
Qed.

(** X16.  The curves of a training run stay in step: after [k] episodes
    there are [k] returns, reference values and mean errors and
    [(k + 1) / 10] success rates, one for each of the episodes 9, 19, ...;
    the loop is left early only right after such an evaluation, and runs
    all [max_episodes] episodes otherwise. *)
Theorem training_loop_curves (dec min : Q) (max_episodes : Z) (e : Env E)
  (s : Solver) (g : Rng R) (epsilon : Q) (t : Training State E R)
  (stop : bool) :
  training_loop State get_features E R s0 dec min
    (episode_indices max_episodes)
    (mkTraining State E R e s g epsilon [] [] [] [])
  = Finished (t, stop) ->
  let k := length (reward_for_plot t) in
  length (initial_state_value_for_plot t) = k /\
  length (avg_bellman_err_for_plot t) = k /\
  Z.of_nat (length (SR_for_plot t)) = ((Z.of_nat k + 1) / 10)%Z /\
  (k <= Z.to_nat max_episodes)%nat /\
  (stop = true -> (0 < k)%nat /\ (Z.of_nat k mod 10 = 9)%Z) /\
  (stop = false -> k = Z.to_nat max_episodes).
Proof.
  intros H. unfold episode_indices in H.
  destruct (training_loop_books dec min (Z.to_nat max_episodes) O _ _ _
              (curves_in_step_start e s g epsilon) eq_refl H)
    as ((C1 & C2 & C3 & _) & j & Hlen & Hj & _ & Hst & Hnst).
  simpl in Hlen. cbv zeta. rewrite Hlen.
  split; [congruence|]. split; [congruence|].
  split; [now rewrite <- Hlen|]. split; [exact Hj|].
  split; [exact Hst | exact Hnst].
Qed.

(** X17.  With a decay factor between 0 and 1 and a non-negative floor,
    the exploration rate after [k >= 1] episodes is never below the floor
    and never above the larger of the start rate and the floor; with a
    factor of 1, the script's, it is that larger value. *)
Theorem training_loop_epsilon (dec min : Q) (max_episodes : Z) (e : Env E)
  (s : Solver) (g : Rng R) (epsilon : Q) (t : Training State E R)
  (stop : bool) :
  0 <= dec <= 1 -> 0 <= min ->
  (0 < length (reward_for_plot t))%nat ->
  training_loop State get_features E R s0 dec min
    (episode_indices max_episodes)
    (mkTraining State E R e s g epsilon [] [] [] [])
  = Finished (t, stop) ->
  min <= epsilon_current t /\
  epsilon_current t <= py_max epsilon min /\
  (dec == 1 -> epsilon_current t == py_max epsilon min).
Proof.
  intros Hd Hm Hk H. unfold episode_indices in H.
  destruct (training_loop_books dec min (Z.to_nat max_episodes) O _ _ _
              (curves_in_step_start e s g epsilon) eq_refl H)
    as (_ & j & Hlen & _ & Heps & _).
  simpl in Hlen, Heps. rewrite Hlen in *. rewrite Heps.
  destruct (decayed_bounds dec min j epsilon Hd Hm Hk) as [Hlow Hup].
  split; [exact Hlow|]. split; [exact Hup|].
  intros Hone. now apply decayed_constant.
Qed.

(** X18.  Every training episode records at least one Bellman error, so
    that no recorded mean is the mean of an empty list, and every recorded
    success rate lies between 0 and 1. *)
Theorem recorded_curves_defined (dec min : Q) (max_episodes : Z)
  (e : Env E) (s : Solver) (g : Rng R) (epsilon : Q)
  (t : Training State E R) (stop : bool) :
  training_loop State get_features E R s0 dec min
    (episode_indices max_episodes)
    (mkTraining State E R e s g epsilon [] [] [] [])
  = Finished (t, stop) ->
  (exists errors, avg_bellman_err_for_plot t = map Some errors) /\
  Forall (fun sr => 0 <= sr <= 1) (SR_for_plot t).
Proof.
  intros H. unfold episode_indices in H.
  destruct (training_loop_books dec min (Z.to_nat max_episodes) O _ _ _
              (curves_in_step_start e s g epsilon) eq_refl H)
    as ((_ & _ & _ & C4 & C5) & _).
  split; [now apply all_defined | exact C5].
Qed.

End TrainingFacts.

(** *** Training never raises *)

Section TrainingSafety.
Import NumPy NumPyFacts SignalFacts ScheduleFacts.

Variable State : Type.
Variable get_features : State -> list Q.
Variable E : Environment State.
Variable R : RandomSource.
Variable s0 : State.

Lemma evaluation_block_total (t : Training State E R) :
  consistent get_features (t_solver t) -> rng_in_range R ->
  action_space_n E = _actions (t_solver t) ->
  exists t' stop,
    evaluation_block State get_features E R t = Finished (t', stop) /\
    t_solver t' = t_solver t.
Proof.
  intros Hc Hr HA.
  destruct (test_episodes_total State get_features E R 10 (t_env t)
              (t_solver t) (t_rng t) (Some 0) Hc Hr HA)
    as (gains & e1 & g1 & Htest).
  unfold evaluation_block. rewrite Htest. cbn [and_then].
  destruct (match mean gains with
            | Some m => Qle_bool (-75) m
            | None => false
            end).
  - destruct (run_default_total State get_features E R e1 (t_solver t) g1
                false None true Hc Hr HA) as (ep & Hep & _).
    pose proof Hep as Hs. unfold run_default in Hs.
    apply run_episode_eval_solver in Hs.
    rewrite Hep. cbn [and_then]. eexists _, true.
    split; [reflexivity | exact Hs].
  - eexists _, false. split; reflexivity.
Qed.

Lemma training_episode_total (dec min : Q) (i : Z)
  (t : Training State E R) :
  consistent get_features (t_solver t) -> rng_in_range R ->
  action_space_n E = _actions (t_solver t) ->
  exists t' stop,
    training_episode State get_features E R s0 dec min i t
    = Finished (t', stop) /\
    consistent get_features (t_solver t') /\
    same_shape (t_solver t) (t_solver t').
Proof.
  intros Hc Hr HA.
  destruct (run_default_total State get_features E R (t_env t) (t_solver t)
              (t_rng t) true (Some (epsilon_current t)) false Hc Hr HA)
    as (ep & Hep & Hc1 & Hsh).
  destruct (get_max_action_consistent State get_features
              (solver (at_exit ep)) s0 Hc1) as (a & Hmax & Ha & _).
  pose proof (get_q_val_state State get_features (solver (at_exit ep)) s0 a
                Hc1 Ha) as Hq.
  assert (HA1 : action_space_n E = _actions (solver (at_exit ep)))
    by (destruct Hsh as (HA1 & _); congruence).
  unfold training_episode. rewrite Hep. cbn [and_then].
  rewrite Hmax. cbn [lift and_then]. rewrite Hq. cbn [lift and_then].
  destruct (i mod 10 =? 9)%Z.
  - match goal with
    | |- exists t' stop, evaluation_block _ _ _ _ ?t1 = _ /\ _ =>
        destruct (evaluation_block_total t1 Hc1 Hr HA1)
          as (t' & stop & Hev & Hs)
    end.
    exists t', stop. split; [exact Hev|]. rewrite Hs. simpl.
    split; assumption.
  - eexists _, false. split; [reflexivity|]. simpl. split; assumption.
Qed.

Lemma training_loop_total (dec min : Q) (indices : list Z)
  (t : Training State E R) :
  consistent get_features (t_solver t) -> rng_in_range R ->
  action_space_n E = _actions (t_solver t) ->
  exists t' stop,
    training_loop State get_features E R s0 dec min indices t
    = Finished (t', stop) /\
    consistent get_features (t_solver t') /\
    same_shape (t_solver t) (t_solver t').
Proof.
  intros Hc Hr. revert t Hc.
  induction indices as [|i rest IH]; intros t Hc HA.
  - exists t, false. split; [reflexivity|].
    split; [exact Hc | apply same_shape_refl].
  - destruct (training_episode_total dec min i t Hc Hr HA)
      as (t1 & stop1 & Hone & Hc1 & Hsh1).
    cbn [training_loop]. rewrite Hone. cbn [and_then].
    destruct stop1.
    + exists t1, true. split; [reflexivity|]. split; assumption.
    + destruct (IH t1 Hc1) as (t' & stop & Hrest & Hc' & Hsh');
        [destruct Hsh1 as (HA1 & _); congruence|].
      exists t', stop. split; [exact Hrest|]. split; [exact Hc'|].
      eapply same_shape_trans; eassumption.
Qed.

(** X19.  With a simulator of at least one action and a feature pipeline
    that yields [features_count] features for every state, the
    construction of the solver, the training loop and the last rendered
    episode of the script run without raising.  The script has then run
    between 1 and 100000 episodes, stopping early only at an episode
    numbered 9, 19, ...; the exploration rate is still its start value 0.1;
    and the solver is consistent. *)
Theorem main_runs (features_count : Z) (e : Env E) (g : Rng R) :
  (0 < action_space_n E)%Z -> (0 <= features_count)%Z ->
  (forall st, Z.of_nat (length (get_features st)) = features_count) ->
  rng_in_range R ->
  exists t stop,
    main State get_features E R s0 features_count e g
    = Finished (t, stop) /\
    consistent get_features (t_solver t) /\
    curves_in_step t /\
    (0 < Z.of_nat (length (reward_for_plot t)) <= 100000)%Z /\
    epsilon_current t == 1 # 10 /\
    (stop = true -> (Z.of_nat (length (reward_for_plot t)) mod 10 = 9)%Z) /\
    (stop = false -> Z.of_nat (length (reward_for_plot t)) = 100000%Z).
Proof.
  intros HA HF Hf Hr. unfold main.
  destruct (Solver_init_some R features_count (action_space_n E)
              (999 # 1000) (5 # 100) g ltac:(nia))
    as (w & g1 & Hdraw & Hinit).
  destruct (uniform_array_draws R g (- (1 # 1000)) 0
              (Z.to_nat (action_space_n E * features_count)))
    as [Hlen _].
  rewrite Hdraw in Hlen. simpl in Hlen.
  pose proof (consistent_fresh State get_features features_count
                (action_space_n E) (999 # 1000) (5 # 100) w HA HF Hf Hlen)
    as Hc.
  rewrite Hinit. cbn [lift and_then].
  set (t0 := mkTraining State E R e
               (mkSolver (action_space_n E) features_count w (999 # 1000)
                  (5 # 100)) g1 (1 # 10) [] [] [] []).
  destruct (training_loop_total 1 (5 # 100) (episode_indices 100000) t0
              Hc Hr eq_refl) as (t & stop & Hloop & Hct & Hsh).
  rewrite Hloop. cbn [and_then].
  destruct (run_default_total State get_features E R (t_env t) (t_solver t)
              (t_rng t) false None true Hct Hr)
    as (ep & Hep & _).
  { destruct Hsh as (HA1 & _). simpl in HA1. congruence. }
  pose proof Hep as Hs. unfold run_default in Hs.
  apply run_episode_eval_solver in Hs.
  rewrite Hep. cbn [and_then].
  unfold episode_indices in Hloop.
  destruct (training_loop_books State get_features E R s0 1 (5 # 100)
              (Z.to_nat 100000) O t0 t stop
              (curves_in_step_start State E R e _ g1 (1 # 10)) eq_refl
              Hloop)
    as (Hcur & j & Hk & Hj & Heps & Hst & Hnst).
  simpl in Hk, Heps.
  assert (Hjpos : (0 < j)%nat).
  { destruct stop; [now apply Hst|]. rewrite (Hnst eq_refl). lia. }
  eexists _, stop. split; [reflexivity|]. simpl.
  split; [now rewrite Hs|]. split; [exact Hcur|].
  rewrite Hk. split; [lia|]. split.
  - rewrite Heps, decayed_closed_form by (try split; discriminate || lia).
    rewrite py_max_large; rewrite Qpower_1; discriminate || reflexivity.
  - split.
    + intros Hstop. now apply Hst.
    + intros Hstop. rewrite (Hnst Hstop). lia.
Qed.

(** X20.  Smoothing the recorded mean errors of a run of [k >= 1] episodes
    with the script's window of 100 never raises.  From episode 100 on it
    yields [k - 99] window means; for a run that stopped before, it yields
    [101 - k] copies of the sum of all recorded errors divided by 100. *)
Theorem training_curve_smoothing (dec min : Q) (max_episodes : Z)
  (e : Env E) (s : Solver) (g : Rng R) (epsilon : Q)
  (t : Training State E R) (stop : bool) :
  (1 <= max_episodes)%Z ->
  training_loop State get_features E R s0 dec min
    (episode_indices max_episodes)
    (mkTraining State E R e s g epsilon [] [] [] [])
  = Finished (t, stop) ->
  exists errors avg,
    avg_bellman_err_for_plot t = map Some errors /\
    length errors = length (reward_for_plot t) /\
    moving_average errors 100 = Some avg /\
    length avg
    = (if (length errors <? 100)%nat then 101 - length errors
       else length errors - 99)%nat /\
    ((length errors < 100)%nat ->
     forall i, (i < length avg)%nat -> nth i avg 0 == sum errors / 100).
Proof.
  intros Hmax H. unfold episode_indices in H.
  destruct (training_loop_books State get_features E R s0 dec min
              (Z.to_nat max_episodes) O _ _ _
              (curves_in_step_start State E R e s g epsilon) eq_refl H)
    as ((_ & C2 & _ & C4 & _) & j & Hk & _ & _ & Hst & Hnst).
  simpl in Hk.
  assert (Hjpos : (0 < j)%nat).
  { destruct stop; [now apply Hst|]. rewrite (Hnst eq_refl). lia. }
  destruct (all_defined _ C4) as (errors & Herr).
  assert (Hlen : length errors = length (reward_for_plot t))
    by (rewrite <- C2, Herr, length_map; reflexivity).
  assert (Hne : errors <> [])
    by (intros ->; simpl in Hlen; lia).
  exists errors.
  destruct (Nat.ltb_spec (length errors) 100) as [Hshort | Hlong].
  - eexists. split; [exact Herr|]. split; [exact Hlen|].
    split; [apply moving_average_short; [exact Hne | exact Hshort]|].
    rewrite length_map, length_correlate_valid, repeat_length, length_rev.
    change (Z.to_nat 100) with 100%nat.
    split; [lia|]. intros _ i Hi.
    rewrite nth_scaled_correlate
      by (rewrite repeat_length, length_rev;
          change (Z.to_nat 100) with 100%nat; exact Hi).
    rewrite skipn_repeat_le, dot_sum_ones_l
      by (rewrite length_rev; change (Z.to_nat 100) with 100%nat; lia).
    now rewrite sum_rev.
  - eexists. split; [exact Herr|]. split; [exact Hlen|].
    split; [apply moving_average_long; [lia | exact Hlong]|].
    rewrite length_map, length_correlate_valid, repeat_length.
    split; [change (Z.to_nat 100) with 100%nat; lia|].
    intros Hlt. change (Z.to_nat 100) with 100%nat in *. lia.
Qed.

End TrainingSafety.

(** ** The further properties on the small instances *)

Lemma demo_whole_consistent : consistent Demo.feats DemoMore.s_whole.
Proof.
  unfold consistent. simpl.
  split; [lia|]. split; [lia|]. split; [reflexivity|].
  intros st. reflexivity.
Defined.

Lemma demo_walk_rewards_goal_only : rewards_goal_only Demo.walk.
Proof.
  intros e a. simpl. destruct (3 <=? e + a - 1)%Z; reflexivity.
Defined.

Lemma moving_average_windows_witness :
  exists l, moving_average [1; 2; 3; 4] 2 = Some l /\ length l = 3%nat.
Proof.
  destruct (moving_average_windows [1; 2; 3; 4] 2 ltac:(lia)
              ltac:(simpl; lia)) as (l & Hl & Hlen & _).
  exists l. split; [exact Hl | exact Hlen].
Defined.

Lemma moving_average_short_input_witness :
  exists l,
    moving_average [1; 2] 4 = Some l /\
    forall k, (k < length l)%nat -> nth k l 0 == NumPy.sum [1; 2] / 4.
Proof.
  destruct (moving_average_short_input [1; 2] 4 ltac:(discriminate)
              ltac:(simpl; lia)) as (l & Hl & _ & Hnth).
  exists l. split; [exact Hl | exact Hnth].
Defined.

Lemma q_val_is_inner_product_witness :
  exists phi_s_a q q',
    get_state_action_features Z Demo.feats Demo.s0 2%Z 1%Z = Some phi_s_a /\
    get_q_val Demo.s0 (Demo.feats 2%Z) 1%Z = Some q /\
    NumPy.dot phi_s_a (theta Demo.s0) = Some q' /\
    q' == q.
Proof.
  apply (q_val_is_inner_product Z Demo.feats Demo.s0 2%Z 1%Z
           demo_consistent).
  unfold in_range. simpl. lia.
Defined.

Lemma action_outside_raises_witness :
  get_q_val Demo.s0 (Demo.feats 2%Z) 3%Z = None /\
  update_theta Z Demo.feats Demo.s0 2%Z 3%Z (-1) 3%Z false = None.
Proof.
  apply (action_outside_raises Z Demo.feats Demo.s0 2%Z 3%Z (-1) 3%Z false
           demo_consistent); simpl; lia.
Defined.

Lemma negative_action_aliases_witness :
  get_q_val Demo.s0 (Demo.feats 2%Z) (-2)%Z
  = get_q_val Demo.s0 (Demo.feats 2%Z) (_actions Demo.s0 + -2)%Z /\
  update_theta Z Demo.feats Demo.s0 2%Z (-2)%Z (-1) 3%Z true
  = update_theta Z Demo.feats Demo.s0 2%Z (_actions Demo.s0 + -2)%Z (-1)
      3%Z true.
Proof.
  apply (negative_action_aliases Z Demo.feats Demo.s0 2%Z (-2)%Z (-1) 3%Z
           true demo_consistent).
  simpl. lia.
Defined.

Lemma update_theta_fixed_point_witness :
  exists s' delta,
    update_theta Z Demo.feats Demo.s0 2%Z 1%Z 2 3%Z true
    = Some (s', delta) /\
    Forall2 Qeq (theta s') (theta Demo.s0).
Proof.
  destruct (update_theta Z Demo.feats Demo.s0 2%Z 1%Z 2 3%Z true)
    as [[s' delta]|] eqn:Hup.
  - exists s', delta. split; [reflexivity|].
    apply (update_theta_fixed_point Z Demo.feats Demo.s0 s' 2%Z 1%Z 2 3%Z
             true delta demo_consistent
             ltac:(unfold in_range; simpl; lia) Hup).
    left. vm_compute in Hup. injection Hup as _ <-. reflexivity.
  - exfalso. vm_compute in Hup. discriminate Hup.
Defined.

Lemma Solver_init_consistent_witness :
  exists s g',
    Solver_init Demo.lowest 2 3 (999 # 1000) (5 # 100) O = Some (s, g') /\
    consistent Demo.feats s.
Proof.
  destruct (Solver_init_consistent Z Demo.feats Demo.lowest 2 3
              (999 # 1000) (5 # 100) O ltac:(lia) ltac:(lia)
              ltac:(intros; reflexivity) demo_rng_in_range)
    as (s & g' & Hinit & Hc & _).
  exists s, g'. split; [exact Hinit | exact Hc].
Defined.

Lemma run_episode_stops_at_first_terminal_witness :
  exists ep,
    run_episode Z Demo.feats Demo.walk Demo.lowest 5 0%Z Demo.s0 O false
      None 5 false = Finished ep /\
    exists earlier d,
      dones (at_exit ep) = earlier ++ [d] /\
      Forall (fun x => x = false) earlier.
Proof.
  destruct (run_episode Z Demo.feats Demo.walk Demo.lowest 5 0%Z Demo.s0 O
              false None 5 false) as [ep | |] eqn:Hep.
  - exists ep. split; [reflexivity|].
    destruct (run_episode_stops_at_first_terminal Z Demo.feats Demo.walk
                Demo.lowest 5 0%Z Demo.s0 O false None 5 false ep Hep)
      as (earlier & d & Hd & Hall & _).
    exists earlier, d. split; [exact Hd | exact Hall].
  - exfalso. vm_compute in Hep. discriminate Hep.
  - exfalso. vm_compute in Hep. discriminate Hep.
Defined.

Lemma run_episode_return_tells_failure_witness :
  exists ep,
    run_episode Z Demo.feats Demo.walk Demo.lowest 5 0%Z Demo.s0 O false
      None 5 false = Finished ep /\
    (gain ep == - inject_Z 5 <-> last (dones (at_exit ep)) false = false).
Proof.
  destruct (run_episode Z Demo.feats Demo.walk Demo.lowest 5 0%Z Demo.s0 O
              false None 5 false) as [ep | |] eqn:Hep.
  - exists ep. split; [reflexivity|].
    apply (run_episode_return_tells_failure Z Demo.feats Demo.walk
             Demo.lowest 5 0%Z Demo.s0 O false None 5 false ep
             demo_walk_rewards_goal_only ltac:(lia) ltac:(simpl; lia) Hep).
  - exfalso. vm_compute in Hep. discriminate Hep.
  - exfalso. vm_compute in Hep. discriminate Hep.
Defined.

Lemma run_episode_keeps_shape_witness :
  run_episode Z Demo.feats Demo.walk Demo.lowest 5 0%Z Demo.s0 O true
    (Some (1 # 10)) 5 false <> Exception.
Proof.
  apply (run_episode_keeps_shape Z Demo.feats Demo.walk Demo.lowest 5 0%Z
           Demo.s0 O true (Some (1 # 10)) 5 false demo_consistent
           demo_rng_in_range eq_refl).
Defined.

Lemma evaluation_SR_in_unit_interval_witness :
  0 <= evaluation_SR [-200; -90; -200; -120; -85; -200; -110; -99; -130; -101]
  <= 1.
Proof.
  apply (evaluation_SR_in_unit_interval
           [-200; -90; -200; -120; -85; -200; -110; -99; -130; -101]).
  simpl. lia.
Defined.

Lemma evaluate_criterion_SR_is_second_return_witness :
  exists mean_test_gain SR rest,
    evaluate_criterion Z Demo.feats Demo.walk Demo.lowest 0%Z Demo.s0 O
    = Finished (mean_test_gain, SR, rest) /\
    snd (fst rest) = Demo.s0.
Proof.
  destruct (evaluate_criterion Z Demo.feats Demo.walk Demo.lowest 0%Z
              Demo.s0 O) as [[[m SR] rest] | |] eqn:H.
  - exists m, SR, rest. split; [reflexivity|].
    destruct (evaluate_criterion_SR_is_second_return Z Demo.feats Demo.walk
                Demo.lowest 0%Z Demo.s0 O m SR rest H)
      as (gains & _ & _ & Hs & _).
    exact Hs.
  - exfalso. vm_compute in H. discriminate H.
  - exfalso. vm_compute in H. discriminate H.
Defined.

(** On the walk, which the greedy policy of [Demo.s0] never solves, every
    evaluation return is -200: the evaluation block's success rate on such
    returns is 0, while [evaluate_criterion] reports -20. *)
Example evaluate_criterion_on_the_walk :
  match evaluate_criterion Z Demo.feats Demo.walk Demo.lowest 0%Z Demo.s0 O
  with
  | Finished (mean_test_gain, SR, _) =>
      SR == -20 /\
      evaluation_SR (repeat (-200) 10) == 0
  | _ => False
  end.
Proof. vm_compute. split; reflexivity. Qed.

Lemma training_loop_curves_witness :
  exists t stop,
    training_loop Z Demo.feats DemoMore.sprint Demo.lowest 0%Z (1 # 2)
      (1 # 20) (episode_indices 9) DemoMore.t0 = Finished (t, stop) /\
    length (avg_bellman_err_for_plot t) = length (reward_for_plot t).
Proof.
  destruct (training_loop Z Demo.feats DemoMore.sprint Demo.lowest 0%Z
              (1 # 2) (1 # 20) (episode_indices 9) DemoMore.t0)
    as [[t stop] | |] eqn:H.
  - exists t, stop. split; [reflexivity|].
    apply (training_loop_curves Z Demo.feats DemoMore.sprint Demo.lowest
             0%Z (1 # 2) (1 # 20) 9 0%Z DemoMore.s_whole O (1 # 10) t stop
             H).
  - exfalso. vm_compute in H. discriminate H.
  - exfalso. vm_compute in H. discriminate H.
Defined.

Lemma training_loop_epsilon_witness :
  exists t stop,
    training_loop Z Demo.feats DemoMore.sprint Demo.lowest 0%Z (1 # 2)
      (1 # 20) (episode_indices 9) DemoMore.t0 = Finished (t, stop) /\
    1 # 20 <= epsilon_current t /\
    epsilon_current t <= py_max (1 # 10) (1 # 20).
Proof.
  destruct (training_loop Z Demo.feats DemoMore.sprint Demo.lowest 0%Z
              (1 # 2) (1 # 20) (episode_indices 9) DemoMore.t0)
    as [[t stop] | |] eqn:H.
  - exists t, stop. split; [reflexivity|].
    destruct (training_loop_epsilon Z Demo.feats DemoMore.sprint
                Demo.lowest 0%Z (1 # 2) (1 # 20) 9 0%Z DemoMore.s_whole O
                (1 # 10) t stop) as (Hlow & Hup & _);
      [split; discriminate | discriminate | | exact H | ].
    + pose proof H as H'. vm_compute in H'. injection H' as <- _.
      simpl. lia.
    + split; [exact Hlow | exact Hup].
  - exfalso. vm_compute in H. discriminate H.
  - exfalso. vm_compute in H. discriminate H.
Defined.

Lemma recorded_curves_defined_witness :
  exists t stop,
    training_loop Z Demo.feats DemoMore.sprint Demo.lowest 0%Z (1 # 2)
      (1 # 20) (episode_indices 9) DemoMore.t0 = Finished (t, stop) /\
    Forall (fun sr => 0 <= sr <= 1) (SR_for_plot t).
Proof.
  destruct (training_loop Z Demo.feats DemoMore.sprint Demo.lowest 0%Z
              (1 # 2) (1 # 20) (episode_indices 9) DemoMore.t0)
    as [[t stop] | |] eqn:H.
  - exists t, stop. split; [reflexivity|].
    apply (recorded_curves_defined Z Demo.feats DemoMore.sprint
             Demo.lowest 0%Z (1 # 2) (1 # 20) 9 0%Z DemoMore.s_whole O
             (1 # 10) t stop H).
  - exfalso. vm_compute in H. discriminate H.
  - exfalso. vm_compute in H. discriminate H.
Defined.

(** The run of the witnesses, evaluated: nine one-step episodes, one
    evaluation at episode 9 whose ten returns are all 100, and the loop
    left there. *)
Example training_run_on_the_sprint :
  match training_loop Z Demo.feats DemoMore.sprint Demo.lowest 0%Z (1 # 2)
          (1 # 20) (episode_indices 9) DemoMore.t0 with
  | Finished (t, stop) =>
      stop = true /\ length (reward_for_plot t) = 9%nat /\
      Forall2 Qeq (SR_for_plot t) [1] /\
      epsilon_current t == 1 # 20
  | _ => False
  end.
Proof.
  vm_compute. split; [reflexivity|]. split; [reflexivity|].
  split; [constructor; [reflexivity | constructor] | reflexivity].
Qed.

Lemma main_runs_witness :
  exists t stop,
    main Z Demo.feats Demo.walk Demo.lowest 0%Z 2 0%Z O = Finished (t, stop) /\
    epsilon_current t == 1 # 10.
Proof.
  destruct (main_runs Z Demo.feats Demo.walk Demo.lowest 0%Z 2 0%Z O
              ltac:(simpl; lia) ltac:(lia) ltac:(intros; reflexivity)
              demo_rng_in_range)
    as (t & stop & Hm & _ & _ & _ & Heps & _).
  exists t, stop. split; [exact Hm | exact Heps].
Defined.

Lemma training_curve_smoothing_witness :
  exists t stop errors avg,
    training_loop Z Demo.feats DemoMore.sprint Demo.lowest 0%Z (1 # 2)
      (1 # 20) (episode_indices 9) DemoMore.t0 = Finished (t, stop) /\
    avg_bellman_err_for_plot t = map Some errors /\
    moving_average errors 100 = Some avg.
Proof.
  destruct (training_loop Z Demo.feats DemoMore.sprint Demo.lowest 0%Z
              (1 # 2) (1 # 20) (episode_indices 9) DemoMore.t0)
    as [[t stop] | |] eqn:H.
  - destruct (training_curve_smoothing Z Demo.feats DemoMore.sprint
                Demo.lowest 0%Z (1 # 2) (1 # 20) 9 0%Z DemoMore.s_whole O
                (1 # 10) t stop ltac:(lia) H)
      as (errors & avg & Herr & _ & Havg & _).
    exists t, stop, errors, avg. split; [reflexivity|].
    split; [exact Herr | exact Havg].
  - exfalso. vm_compute in H. discriminate H.
  - exfalso. vm_compute in H. discriminate H.
Defined.
